(** * target-mongodb: the batch sink [MongoDbSink.process_batch]

    A shallow embedding of [target_mongodb/sinks.py].  Python values are an
    inductive type, records (dicts) are insertion-ordered association lists
    living in a heap of shared objects, and [process_batch] is written in a
    state-and-exception monad over the observable world: the heap, the batch
    buffer [context["records"]], the identifier generator, the storage
    server, the trace of driver write calls and the logger output.

    The libraries the method calls ([bson.ObjectId], [urllib.parse.quote],
    the [pymongo] driver) are not part of the repository.  [ObjectId] and
    [quote] are modelled after their documented behaviour; the driver is an
    interface ([Pymongo]) the development is parametric in, with an
    in-memory instance used to run the sink on concrete batches. *)

From Stdlib Require Import List String Ascii ZArith NArith Arith Bool Lia.
From Stdlib Require Import Strings.Byte DecimalString.
From Stdlib Require Lists.Finite.
Import ListNotations.
Local Open Scope string_scope.
Local Open Scope list_scope.
Set Warnings "-register-all".

(** ** Python values *)

Module Py.

(** The values a record, a configuration entry or a key can hold.  A [str]
    is a [string] whose characters are read as the code points
    U+0000..U+00FF. *)
Inductive value : Type :=
| VNone
| VBool (b : bool)
| VInt (z : Z)
| VStr (s : string)
| VBytes (b : list byte)
| VObjectId (binary : list byte)
| VList (l : list value)
| VDict (d : list (string * value)).

(** A [dict] with [str] keys, in insertion order. *)
Definition dict : Type := list (string * value).

(** [d.get(k)]: the value stored under [k], [None] when there is none. *)
Fixpoint get (k : string) (d : dict) : value :=
  match d with
  | [] => VNone
  | (k', v) :: d' => if String.eqb k k' then v else get k d'
  end.

(** [k in d]. *)
Fixpoint contains (k : string) (d : dict) : bool :=
  match d with
  | [] => false
  | (k', _) :: d' => if String.eqb k k' then true else contains k d'
  end.

(** [d.get(k, default)]. *)
Definition get_default (k : string) (default : value) (d : dict) : value :=
  if contains k d then get k d else default.

(** [d.pop(k, None)], keeping the dict and dropping the popped value. *)
Definition pop (k : string) (d : dict) : dict :=
  filter (fun kv => negb (String.eqb k (fst kv))) d.

(** Truth value of an object, as [if x:] and [not x] test it. *)
Definition truthy (v : value) : bool :=
  match v with
  | VNone => false
  | VBool b => b
  | VInt z => negb (Z.eqb z 0)
  | VStr s => negb (String.eqb s "")
  | VBytes b => negb (Nat.eqb (List.length b) 0)
  | VObjectId _ => true
  | VList l => negb (Nat.eqb (List.length l) 0)
  | VDict d => negb (Nat.eqb (List.length d) 0)
  end.

(** The exceptions the method can meet. *)
Inductive exn : Type :=
| KeyError (key : string)
| TypeError (culprit : value)
| InvalidId (oid : value)
| BulkWriteError (write_errors : list (nat * string))
| PyMongoError (message : string).

End Py.
Import Py.

(** ** [urllib.parse.quote] *)

Module Urllib.

Definition hex_upper (n : N) : ascii :=
  if (n <? 10)%N then ascii_of_N (48 + n) else ascii_of_N (55 + n).

(** ['%{:02X}'.format(b)] *)
Definition percent (b : N) : string :=
  String "%" (String (hex_upper (b / 16)) (String (hex_upper (b mod 16)) EmptyString)).

(** The always-safe bytes [A-Za-z0-9_.-~] together with the default
    [safe='/']. *)
Definition is_safe (b : N) : bool :=
  ((65 <=? b) && (b <=? 90) || (97 <=? b) && (b <=? 122) ||
   (48 <=? b) && (b <=? 57) ||
   (b =? 95) || (b =? 46) || (b =? 45) || (b =? 126) || (b =? 47))%N.

Definition quote_byte (b : N) : string :=
  if is_safe b then String (ascii_of_N b) EmptyString else percent b.

(** UTF-8 encoding of a code point below U+0100. *)
Definition utf8 (c : N) : list N :=
  if (c <? 128)%N then [c] else [(192 + c / 64)%N; (128 + c mod 64)%N].

(** [quote(string)] with the default arguments. *)
Fixpoint quote (s : string) : string :=
  match s with
  | EmptyString => EmptyString
  | String c s' =>
      fold_right (fun b acc => String.append (quote_byte b) acc) (quote s')
                 (utf8 (N_of_ascii c))
  end.

End Urllib.

(** ** [bson.objectid.ObjectId] *)

Module Bson.

(** [Py_ISSPACE] *)
Definition is_space (c : ascii) : bool :=
  let n := N_of_ascii c in ((9 <=? n) && (n <=? 13) || (n =? 32))%N.

Definition hex_value (c : ascii) : option N :=
  let n := N_of_ascii c in
  if ((48 <=? n) && (n <=? 57))%N then Some (n - 48)%N
  else if ((97 <=? n) && (n <=? 102))%N then Some (n - 87)%N
  else if ((65 <=? n) && (n <=? 70))%N then Some (n - 55)%N
  else None.

(** [bytes.fromhex]: pairs of hexadecimal digits, white space allowed
    between the pairs; [None] stands for the [ValueError]. *)
Fixpoint fromhex (s : string) : option (list byte) :=
  match s with
  | EmptyString => Some []
  | String c s' =>
      if is_space c then fromhex s'
      else
        match hex_value c, s' with
        | Some top, String c' s'' =>
            match hex_value c' with
            | Some bot =>
                option_map (cons (byte_of_ascii (ascii_of_N (16 * top + bot))))
                           (fromhex s'')
            | None => None
            end
        | _, _ => None
        end
  end.

(** The outcome of [ObjectId(oid)] before any identifier is generated:
    [inr None] asks for a generated identifier ([oid is None]), [inr (Some b)]
    is the identifier with binary form [b], [inl e] is the exception. *)
Definition validate (oid : value) : exn + option (list byte) :=
  match oid with
  | VNone => inr None
  | VBytes b => if Nat.eqb (List.length b) 12 then inr (Some b) else inl (TypeError oid)
  | VObjectId b => inr (Some b)
  | VStr s =>
      if Nat.eqb (String.length s) 24 then
        match fromhex s with
        | Some b => inr (Some b)
        | None => inl (InvalidId oid)
        end
      else inl (InvalidId oid)
  | _ => inl (TypeError oid)
  end.

(** A character that is neither a hexadecimal digit nor white space. *)
Definition foreign (c : ascii) : Prop := hex_value c = None /\ is_space c = false.

End Bson.

(** ** The driver and the runtime, as interfaces *)

(** [pymongo.UpdateOne(filter, update, upsert)].  The update document
    [{"$set": record}] keeps a reference to the record: [R] is the type of
    that reference, an address while the request is built and the record's
    content once the driver encodes the request. *)
Record UpdateOne (R : Type) : Type := mkUpdateOne {
  filter : dict;
  update : list (string * R);
  upsert : bool
}.
Arguments mkUpdateOne {R} _ _ _.
Arguments filter {R} _.
Arguments update {R} _.
Arguments upsert {R} _.

(** The two counters of [pymongo.results.BulkWriteResult] the sink reads. *)
Record BulkWriteResult : Type := mkBulkWriteResult {
  modified_count : Z;
  upserted_count : Z
}.

(** What the sink needs of [pymongo]: building a client, selecting a
    database, and the two write calls on [db[collection_name]].  [Store] is
    the state of the storage server; each write call is a transition of it
    that returns a result or raises. *)
Class Pymongo : Type := {
  Store : Type;
  Client : Type;
  Database : Type;
  MongoClient : value -> Z -> bool -> value -> exn + Client;
  Client_getitem : Client -> value -> exn + Database;
  bulk_write :
    Database -> string -> list (UpdateOne dict) -> bool -> Store ->
    (exn + BulkWriteResult) * Store;
  insert_many :
    Database -> string -> list dict -> Store -> (exn + unit) * Store
}.

(** What the sink needs of the interpreter: [str(x)] as an f-string renders
    a value, and the identifiers [ObjectId()] generates, in order. *)
Class Runtime : Type := {
  str : value -> string;
  generate : nat -> list byte
}.

(** The write calls that reach the driver, with the documents as they are
    when the call is made. *)
Inductive call : Type :=
| Call_bulk_write (collection_name : string) (requests : list (UpdateOne dict))
                  (ordered : bool)
| Call_insert_many (collection_name : string) (documents : list dict).

(** Logger output.  Each message stands for one f-string of the source:
    - [MalformedId find_id e]:
      ["Malformed id: {find_id}. Skipping this record. Error: {e}"]
    - [BulkWriteCompleted m u]:
      ["Bulk write completed: {m} updated, {u} upserted."]
    - [Uploaded n c]: ["Uploaded {n} records into {c}"] *)
Inductive level : Type := WARNING | INFO.

Inductive message : Type :=
| MalformedId (find_id : value) (e : exn)
| BulkWriteCompleted (modified upserted : Z)
| Uploaded (count : nat) (collection_name : string).

Definition log_entry : Type := level * message.

(** The sink object: the attributes of [self] the method reads. *)
Record MongoDbSink : Type := mkSink {
  config : dict;
  stream_name : string;
  key_properties : list string
}.

Definition max_size : Z := 1000000.

(** ** Pure exceptions: [exn + A] *)

Module Exc.

Definition bind {A B} (m : exn + A) (k : A -> exn + B) : exn + B :=
  match m with
  | inl e => inl e
  | inr a => k a
  end.

(** [d[k]] *)
Definition getitem (k : string) (d : dict) : exn + value :=
  if contains k d then inr (get k d) else inl (KeyError k).

End Exc.

Notation "'let?' x ':=' m 'in' k" := (Exc.bind m (fun x => k))
  (at level 10, x name, m at level 100, k at level 200).

Section Sink.

Context {runtime : Runtime} {driver : Pymongo}.

(** Lines 26-42: the connection string assembled from the configuration
    when none is given. *)
Definition build_connection_string (config : dict) (db_name : value) : exn + value :=
  let? srv := Exc.getitem "srv" config in
  if truthy srv then
    let? user := Exc.getitem "user" config in
    let? password := Exc.getitem "password" config in
    let? host := Exc.getitem "host" config in
    let? auth_database := Exc.getitem "auth_database" config in
    inr (VStr ("mongodb+srv://" ++ str user ++ ":" ++ str password ++ "@" ++
               str host ++ "/" ++ str db_name ++
               "?authSource=" ++ str auth_database))
  else if contains "port" config then
    let? user := Exc.getitem "user" config in
    let? password := Exc.getitem "password" config in
    let? host := Exc.getitem "host" config in
    let? port := Exc.getitem "port" config in
    let? auth_database := Exc.getitem "auth_database" config in
    inr (VStr ("mongodb://" ++ str user ++ ":" ++ str password ++ "@" ++
               str host ++ ":" ++ str port ++ "/" ++ str db_name ++
               "?authSource=" ++ str auth_database))
  else
    let? user := Exc.getitem "user" config in
    let? password := Exc.getitem "password" config in
    let? host := Exc.getitem "host" config in
    let? auth_database := Exc.getitem "auth_database" config in
    inr (VStr ("mongodb://" ++ str user ++ ":" ++ str password ++ "@" ++
               str host ++ "/" ++ str db_name ++
               "?authSource=" ++ str auth_database)).

(** Lines 21-50: from the configuration to the database handle. *)
Definition connect (config : dict) : exn + Database :=
  let connection_string := get "connection_string" config in
  let db_name := get_default "db_name" (get "database" config) config in
  let? connection_string :=
    if negb (truthy connection_string)
    then build_connection_string config db_name
    else inr connection_string in
  let? client :=
    MongoClient connection_string 2000 true (get_default "ssl" (VBool false) config) in
  Client_getitem client db_name.

(** ** The world and its monad *)

Definition addr : Type := nat.

Record world : Type := mkWorld {
  heap : addr -> dict;            (* the record objects *)
  context_records : list addr;    (* context["records"] *)
  oid_count : nat;                (* identifiers generated so far *)
  store : Store;                  (* the storage server *)
  calls : list call;              (* write calls made, oldest first *)
  log : list log_entry            (* logger output, oldest first *)
}.

Definition M (A : Type) : Type := world -> (exn + A) * world.

Definition ret {A} (a : A) : M A := fun w => (inr a, w).

Definition raise {A} (e : exn) : M A := fun w => (inl e, w).

Definition bind {A B} (m : M A) (k : A -> M B) : M B :=
  fun w =>
    match m w with
    | (inl e, w') => (inl e, w')
    | (inr a, w') => k a w'
    end.

(** [try: m  except Exception as e: handler(e)] *)
Definition try_except {A} (m : M A) (handler : exn -> M A) : M A :=
  fun w =>
    match m w with
    | (inl e, w') => handler e w'
    | (inr a, w') => (inr a, w')
    end.

Definition lift {A} (r : exn + A) : M A := fun w => (r, w).

Notation "x <- m ;; k" := (bind m (fun x => k))
  (at level 61, m at next level, right associativity).
Notation "m ;; k" := (bind m (fun _ => k))
  (at level 61, right associativity).

(** *** Primitive actions *)

(** [record.get(key)] on the record object at [record]. *)
Definition record_get (record : addr) (key : string) : M value :=
  fun w => (inr (get key (heap w record)), w).

(** [record.pop(key, None)]: the object is changed in place, for every
    holder of a reference to it. *)
Definition record_pop (record : addr) (key : string) : M unit :=
  fun w =>
    (inr tt,
     mkWorld (fun a => if Nat.eqb a record then pop key (heap w a) else heap w a)
             (context_records w) (oid_count w) (store w) (calls w) (log w)).

(** [ObjectId(oid)]: generated when [oid] is [None], else validated. *)
Definition ObjectId (oid : value) : M value :=
  fun w =>
    match Bson.validate oid with
    | inl e => (inl e, w)
    | inr (Some binary) => (inr (VObjectId binary), w)
    | inr None =>
        (inr (VObjectId (generate (oid_count w))),
         mkWorld (heap w) (context_records w) (S (oid_count w)) (store w)
                 (calls w) (log w))
    end.

Definition logger (lvl : level) (msg : message) : M unit :=
  fun w =>
    (inr tt,
     mkWorld (heap w) (context_records w) (oid_count w) (store w) (calls w)
             (log w ++ [(lvl, msg)])).

Definition logger_warn : message -> M unit := logger WARNING.
Definition logger_info : message -> M unit := logger INFO.

(** The request as the driver encodes it: references replaced by the
    content of the records at that moment. *)
Definition resolve (h : addr -> dict) (op : UpdateOne addr) : UpdateOne dict :=
  mkUpdateOne (filter op) (map (fun kv => (fst kv, h (snd kv))) (update op)) (upsert op).

(** [db[collection_name].bulk_write(requests, ordered=ordered)] *)
Definition collection_bulk_write (db : Database) (collection_name : string)
    (requests : list (UpdateOne addr)) (ordered : bool) : M BulkWriteResult :=
  fun w =>
    let sent := map (resolve (heap w)) requests in
    let (r, s) := bulk_write db collection_name sent ordered (store w) in
    (r, mkWorld (heap w) (context_records w) (oid_count w) s
                (calls w ++ [Call_bulk_write collection_name sent ordered]) (log w)).

(** [db[collection_name].insert_many(documents)].  The driver gives an
    [_id] to the documents that have none; the method reads no record after
    this call, and the heap keeps the records as the sink left them. *)
Definition collection_insert_many (db : Database) (collection_name : string)
    (documents : list addr) : M unit :=
  fun w =>
    let sent := map (heap w) documents in
    let (r, s) := insert_many db collection_name sent (store w) in
    (r, mkWorld (heap w) (context_records w) (oid_count w) s
                (calls w ++ [Call_insert_many collection_name sent]) (log w)).

(** [context["records"]] and [context["records"] = records]. *)
Definition get_records : M (list addr) :=
  fun w => (inr (context_records w), w).

Definition set_records (records : list addr) : M unit :=
  fun w =>
    (inr tt, mkWorld (heap w) records (oid_count w) (store w) (calls w) (log w)).

(** *** [process_batch] *)

(** Lines 59-78, the body of [for record in records]: [Some op] is the
    request appended to [bulk_operations], [None] is the [continue]. *)
Definition loop_body (primary_id : string) (record : addr) : M (option (UpdateOne addr)) :=
  find_id <- record_get record primary_id ;;
  if String.eqb primary_id "_id" then
    try_except
      (find_id <- ObjectId find_id ;;
       record_pop record "_id" ;;
       ret (Some (mkUpdateOne [(primary_id, find_id)] [("$set", record)] true)))
      (fun e =>
         logger_warn (MalformedId find_id e) ;;
         ret None)
  else
    ret (Some (mkUpdateOne [(primary_id, find_id)] [("$set", record)] true)).

(** Lines 58-78, the loop, threading [bulk_operations]. *)
Fixpoint for_records (primary_id : string) (records : list addr)
    (bulk_operations : list (UpdateOne addr)) : M (list (UpdateOne addr)) :=
  match records with
  | [] => ret bulk_operations
  | record :: records' =>
      op <- loop_body primary_id record ;;
      for_records primary_id records'
        (match op with
         | Some op => bulk_operations ++ [op]
         | None => bulk_operations
         end)
  end.

Definition process_batch (self : MongoDbSink) : M unit :=
  let collection_name := Urllib.quote (stream_name self) in
  db <- lift (connect (config self)) ;;
  records <- get_records ;;
  match key_properties self with
  | primary_id :: _ =>
      bulk_operations <- for_records primary_id records [] ;;
      match bulk_operations with
      | _ :: _ =>
          result <- collection_bulk_write db collection_name bulk_operations false ;;
          logger_info (BulkWriteCompleted (modified_count result) (upserted_count result))
      | [] => ret tt
      end
  | [] =>
      collection_insert_many db collection_name records
  end ;;
  logger_info (Uploaded (List.length records) collection_name) ;;
  set_records [].

End Sink.

Arguments world {driver}.
Arguments M {driver} A.

(** ** An in-memory driver

    A storage server holding the documents of each collection, with the
    write semantics of the document store the sink targets: an update with
    [upsert] changes the first document matching the filter or creates one
    from the filter and the [$set] fields; the identifier of a stored
    document cannot be changed; identifiers are unique within a collection.
    An unordered bulk write attempts every request and raises
    [BulkWriteError] afterwards when some of them failed.  A document
    created without an [_id] is stored as it is: the identifier the server
    would give it plays no part here. *)

Module MemoryStore.

(** Equality of binary strings. *)
Fixpoint bytes_eqb (x y : list byte) : bool :=
  match x with
  | [] => match y with [] => true | _ :: _ => false end
  | b :: x' =>
      match y with
      | [] => false
      | c :: y' => Byte.eqb b c && bytes_eqb x' y'
      end
  end.

Fixpoint value_eqb (a b : value) {struct a} : bool :=
  match a, b with
  | VNone, VNone => true
  | VBool x, VBool y => Bool.eqb x y
  | VInt x, VInt y => Z.eqb x y
  | VStr x, VStr y => String.eqb x y
  | VBytes x, VBytes y => bytes_eqb x y
  | VObjectId x, VObjectId y => bytes_eqb x y
  | VList x, VList y =>
      (fix go (l1 l2 : list value) {struct l1} : bool :=
         match l1, l2 with
         | [], [] => true
         | u :: l1', v :: l2' => value_eqb u v && go l1' l2'
         | _, _ => false
         end) x y
  | VDict x, VDict y =>
      (fix go (l1 l2 : list (string * value)) {struct l1} : bool :=
         match l1, l2 with
         | [], [] => true
         | (k, u) :: l1', (k', v) :: l2' =>
             String.eqb k k' && value_eqb u v && go l1' l2'
         | _, _ => false
         end) x y
  | _, _ => false
  end.

(** A document matches a filter when it agrees with it on every field of
    the filter; an absent field reads as [None]. *)
Definition matches (flt : dict) (doc : dict) : bool :=
  forallb (fun kv => value_eqb (get (fst kv) doc) (snd kv)) flt.

Fixpoint set_field (k : string) (v : value) (doc : dict) : dict :=
  match doc with
  | [] => [(k, v)]
  | (k', v') :: doc' =>
      if String.eqb k k' then (k, v) :: doc' else (k', v') :: set_field k v doc'
  end.

(** [$set]: the fields of [fields] overwrite or extend [doc]. *)
Definition apply_set (fields : dict) (doc : dict) : dict :=
  fold_left (fun d kv => set_field (fst kv) (snd kv) d) fields doc.

(** The fields under the [$set] operator of an update document. *)
Fixpoint set_fields (upd : list (string * dict)) : dict :=
  match upd with
  | [] => []
  | (k, d) :: upd' => if String.eqb k "$set" then d else set_fields upd'
  end.

Inductive outcome : Type :=
| Modified            (* a matching document was changed *)
| Unchanged           (* a matching document already had these fields *)
| Upserted            (* no document matched: one was created *)
| NoMatch             (* no document matched and [upsert] is off *)
| WriteError (errmsg : string).

(** Whether an update of [doc] with [fields] would change its [_id]. *)
Definition changes_id (fields doc : dict) : bool :=
  contains "_id" fields && negb (value_eqb (get "_id" fields) (get "_id" doc)).

Fixpoint update_one (op : UpdateOne dict) (docs : list dict) : outcome * list dict :=
  match docs with
  | [] =>
      if upsert op
      then (Upserted, [apply_set (set_fields (update op)) (filter op)])
      else (NoMatch, [])
  | doc :: docs' =>
      if matches (filter op) doc then
        if changes_id (set_fields (update op)) doc
        then (WriteError "would modify the immutable field '_id'", docs)
        else
          let doc' := apply_set (set_fields (update op)) doc in
          (if value_eqb (VDict doc') (VDict doc) then Unchanged else Modified,
           doc' :: docs')
      else
        let (o, docs'') := update_one op docs' in (o, doc :: docs'')
  end.

(** The position of the document an update with filter [flt] acts on: the
    first one that matches. *)
Fixpoint target (flt : dict) (docs : list dict) : option nat :=
  match docs with
  | [] => None
  | doc :: docs' =>
      if matches flt doc then Some 0 else option_map S (target flt docs')
  end.

Record tally : Type := mkTally {
  n_modified : Z;
  n_upserted : Z;
  errors : list (nat * string)
}.

(** The requests in sequence, from index [i]: one admissible order of an
    unordered execution.  An ordered execution stops at the first error. *)
Fixpoint run_updates (ordered : bool) (i : nat) (ops : list (UpdateOne dict))
    (t : tally) (docs : list dict) : tally * list dict :=
  match ops with
  | [] => (t, docs)
  | op :: ops' =>
      let (o, docs') := update_one op docs in
      match o with
      | Modified =>
          run_updates ordered (S i) ops'
            (mkTally (n_modified t + 1) (n_upserted t) (errors t)) docs'
      | Upserted =>
          run_updates ordered (S i) ops'
            (mkTally (n_modified t) (n_upserted t + 1) (errors t)) docs'
      | Unchanged | NoMatch => run_updates ordered (S i) ops' t docs'
      | WriteError m =>
          let t' := mkTally (n_modified t) (n_upserted t) (errors t ++ [(i, m)]) in
          if ordered then (t', docs') else run_updates ordered (S i) ops' t' docs'
      end
  end.

Definition collections : Type := list (string * list dict).

Fixpoint find_collection (name : string) (s : collections) : list dict :=
  match s with
  | [] => []
  | (n, docs) :: s' => if String.eqb name n then docs else find_collection name s'
  end.

Fixpoint put_collection (name : string) (docs : list dict) (s : collections) : collections :=
  match s with
  | [] => [(name, docs)]
  | (n, d) :: s' =>
      if String.eqb name n then (n, docs) :: s' else (n, d) :: put_collection name docs s'
  end.

Definition mem_bulk_write (db : string) (collection_name : string)
    (requests : list (UpdateOne dict)) (ordered : bool) (s : collections)
  : (exn + BulkWriteResult) * collections :=
  let (t, docs) :=
    run_updates ordered 0 requests (mkTally 0 0 []) (find_collection collection_name s) in
  let s' := put_collection collection_name docs s in
  match errors t with
  | [] => (inr (mkBulkWriteResult (n_modified t) (n_upserted t)), s')
  | _ :: _ => (inl (BulkWriteError (errors t)), s')
  end.

Definition has_id (v : value) (doc : dict) : bool :=
  contains "_id" doc && value_eqb (get "_id" doc) v.

(** Inserts in sequence, stopping at the first duplicate identifier. *)
Fixpoint run_inserts (i : nat) (new : list dict) (docs : list dict)
  : option (nat * string) * list dict :=
  match new with
  | [] => (None, docs)
  | d :: new' =>
      if contains "_id" d && existsb (has_id (get "_id" d)) docs
      then (Some (i, "duplicate key"), docs)
      else run_inserts (S i) new' (docs ++ [d])
  end.

Definition mem_insert_many (db : string) (collection_name : string)
    (documents : list dict) (s : collections) : (exn + unit) * collections :=
  match documents with
  | [] => (inl (TypeError (VList [])), s)   (* documents must be a non-empty list *)
  | _ :: _ =>
      let (err, docs) := run_inserts 0 documents (find_collection collection_name s) in
      let s' := put_collection collection_name docs s in
      match err with
      | None => (inr tt, s')
      | Some e => (inl (BulkWriteError [e]), s')
      end
  end.

#[export] Instance driver : Pymongo := {|
  Store := collections;
  Client := value;
  Database := string;
  MongoClient host _ _ _ := inr host;
  Client_getitem _ name :=
    match name with
    | VStr s => inr s
    | _ => inl (TypeError name)
    end;
  bulk_write := mem_bulk_write;
  insert_many := mem_insert_many
|}.

(** Identifiers as a process generates them: a fixed time stamp and
    process part, then a three-byte counter. *)
Definition counter_bytes (n : nat) : list byte :=
  let c := N.of_nat n in
  map (fun k => byte_of_ascii (ascii_of_N (k mod 256)))
      [(c / 65536)%N; (c / 256)%N; c].

Definition mem_generate (n : nat) : list byte :=
  [x65; x4f; x2a; x10; xa1; xb2; xc3; xd4; xe5] ++ counter_bytes n.

(** [str(x)] on the scalars a configuration holds; the other values, which
    no connection string is built from, render as the empty string. *)
Definition mem_str (v : value) : string :=
  match v with
  | VNone => "None"
  | VBool true => "True"
  | VBool false => "False"
  | VInt z => DecimalString.NilZero.string_of_int (Z.to_int z)
  | VStr s => s
  | _ => ""
  end.

#[export] Instance runtime : Runtime := {|
  str := mem_str;
  generate := mem_generate
|}.

End MemoryStore.

(** ** Reading a run: what was submitted, skipped and reported *)

(** The warning logged for a record skipped for its identifier. *)
Definition skip_warning (reason : value * exn) : log_entry :=
  (WARNING, MalformedId (fst reason) (snd reason)).

Definition is_skip (entry : log_entry) : bool :=
  match entry with
  | (WARNING, MalformedId _ _) => true
  | _ => false
  end.

Definition is_bulk_result (entry : log_entry) : bool :=
  match entry with
  | (_, BulkWriteCompleted _ _) => true
  | _ => false
  end.

(** Number of records reported as skipped. *)
Definition skipped_count (l : list log_entry) : nat :=
  List.length (List.filter is_skip l).

(** Sum of the updated, respectively upserted, counts reported. *)
Definition reported_updated (l : list log_entry) : Z :=
  fold_right (fun entry acc =>
                match entry with
                | (_, BulkWriteCompleted m _) => (m + acc)%Z
                | _ => acc
                end) 0%Z l.

Definition reported_upserted (l : list log_entry) : Z :=
  fold_right (fun entry acc =>
                match entry with
                | (_, BulkWriteCompleted _ u) => (u + acc)%Z
                | _ => acc
                end) 0%Z l.

(** Number of write operations handed to the driver. *)
Definition submitted (cs : list call) : nat :=
  fold_right (fun c acc =>
                match c with
                | Call_bulk_write _ requests _ => List.length requests + acc
                | Call_insert_many _ documents => List.length documents + acc
                end) 0 cs.


(** The request built for [record] under the key [primary_id] with the
    key value [find_id]. *)
Definition upsert_by_key (primary_id : string) (find_id : value) (record : addr)
  : UpdateOne addr :=
  mkUpdateOne [(primary_id, find_id)] [("$set", record)] true.

(** The same request once the driver has read the record's fields. *)
Definition upsert_sent (primary_id : string) (find_id : value) (fields : dict)
  : UpdateOne dict :=
  mkUpdateOne [(primary_id, find_id)] [("$set", fields)] true.

(** The three ways one iteration of the loop ends: the key is not [_id]
    and the raw value is used; the identifier is refused and the record is
    skipped with a warning; the identifier is converted (or generated) and
    removed from the record. *)
Inductive iteration {runtime : Runtime} {driver : Pymongo}
    (primary_id : string) (record : addr) (w : world)
  : option (UpdateOne addr) -> world -> Prop :=
| Iter_raw_key :
    primary_id <> "_id" ->
    iteration primary_id record w
      (Some (upsert_by_key primary_id (get primary_id (heap w record)) record)) w
| Iter_skip (e : exn) :
    primary_id = "_id" ->
    Bson.validate (get "_id" (heap w record)) = inl e ->
    iteration primary_id record w None
      (snd (logger_warn (MalformedId (get "_id" (heap w record)) e) w))
| Iter_convert (find_id : value) (w1 : world) :
    primary_id = "_id" ->
    ObjectId (get "_id" (heap w record)) w = (inr find_id, w1) ->
    iteration primary_id record w
      (Some (upsert_by_key "_id" find_id record))
      (snd (record_pop record "_id" w1)).

(** ** Concrete batches

    Sinks and batches on the in-memory driver, used to run the method. *)

Module Scenario.
Import MemoryStore.

Definition settings : dict :=
  [("connection_string", VStr "mongodb://localhost:27017"); ("db_name", VStr "warehouse")].

Definition by_id : MongoDbSink := mkSink settings "users" ["_id"].
Definition by_sku : MongoDbSink := mkSink settings "products" ["sku"].
Definition unkeyed : MongoDbSink := mkSink settings "click events" [].

(** Record objects: a well-formed identifier, a malformed one, none, an
    explicit [None], and an integer. *)
Definition people (a : addr) : dict :=
  match a with
  | 0 => [("_id", VStr "507f1f77bcf86cd799439011"); ("name", VStr "a")]
  | 1 => [("_id", VStr "bad"); ("name", VStr "b")]
  | 2 => [("name", VStr "c")]
  | 3 => [("_id", VNone); ("name", VStr "d")]
  | 4 => [("_id", VInt 42); ("name", VStr "e")]
  | _ => []
  end.

(** Record objects keyed by [sku]; the first carries an [_id] of its own,
    the last two have no [sku]. *)
Definition products (a : addr) : dict :=
  match a with
  | 0 => [("_id", VStr "p-2"); ("sku", VStr "A1"); ("price", VInt 12)]
  | 1 => [("sku", VStr "B2"); ("price", VInt 5)]
  | 2 => [("price", VInt 7)]
  | 3 => [("price", VInt 9)]
  | _ => []
  end.

(** A world with the given record objects, batch and stored collections,
    before anything is called or logged. *)
Definition start (h : addr -> dict) (records : list addr) (s : collections)
  : @world driver :=
  mkWorld h records 0 s [] [].

Definition mixed : @world driver := start people [0; 1; 2] [].
Definition all_malformed : @world driver := start people [1; 4] [].
Definition nothing : @world driver := start people [] [].

(** The collection already holds a product with the [sku] of the first
    record of the batch, under another [_id]. *)
Definition stocked : @world driver :=
  start products [0; 1]
        [("products", [[("_id", VStr "p-1"); ("sku", VStr "A1"); ("price", VInt 10)]])].

Definition unlabelled : @world driver := start products [2; 3] [].

(** The outcome of the loop alone on a batch. *)
Definition mapped (primary_id : string) (records : list addr) (w : @world driver)
  : list (UpdateOne addr) :=
  match fst (for_records primary_id records [] w) with
  | inr ops => ops
  | inl _ => []
  end.

End Scenario.

(** ** Reading a batch keyed by [_id] *)

(** Whether [ObjectId] accepts the [_id] of a record with these fields. *)
Definition accepted (fields : dict) : bool :=
  match Bson.validate (get "_id" fields) with
  | inr _ => true
  | inl _ => false
  end.

(** The warning logged for a record with these fields, when its [_id] is
    refused. *)
Definition refusal (fields : dict) : list log_entry :=
  match Bson.validate (get "_id" fields) with
  | inl e => [skip_warning (get "_id" fields, e)]
  | inr _ => []
  end.

(** Whether the record object at [b] is one of [done]. *)
Definition among (done : list addr) (b : addr) : bool := existsb (Nat.eqb b) done.

(** The record objects a request refers to. *)
Definition records_of (op : UpdateOne addr) : list addr := map snd (update op).

(** The settings a connection string is assembled from, in the order the
    f-strings of lines 28-42 read them; [port] is read only when it is
    there. *)
Definition connection_settings : list string :=
  ["srv"; "user"; "password"; "host"; "auth_database"].

(** ** Decoding a collection name

    The inverse of [quote] on the names it produces: percent escapes back
    to bytes, bytes back to code points. *)

Module Unquote.

Definition unhex (c : ascii) : N :=
  let n := N_of_ascii c in
  if (n <? 58)%N then (n - 48)%N else (n - 55)%N.

Fixpoint percent_decode (s : string) : list N :=
  match s with
  | EmptyString => []
  | String c s' =>
      if Ascii.eqb c "%" then
        match s' with
        | String h (String l s'') => (16 * unhex h + unhex l)%N :: percent_decode s''
        | _ => []
        end
      else N_of_ascii c :: percent_decode s'
  end.

Fixpoint utf8_decode (bs : list N) : string :=
  match bs with
  | [] => EmptyString
  | b :: bs' =>
      if (b <? 128)%N then String (ascii_of_N b) (utf8_decode bs')
      else
        match bs' with
        | b' :: bs'' =>
            String (ascii_of_N ((b - 192) * 64 + (b' - 128))) (utf8_decode bs'')
        | [] => EmptyString
        end
  end.

Definition unquote (s : string) : string := utf8_decode (percent_decode s).

End Unquote.

(** ** A server that cannot be reached

    The client is built without contacting the server; every write call
    then fails. *)

Module Offline.

Definition driver : Pymongo := {|
  Store := unit;
  Client := value;
  Database := value;
  MongoClient host _ _ _ := inr host;
  Client_getitem _ name := inr name;
  bulk_write _ _ _ _ s := (inl (PyMongoError "ServerSelectionTimeoutError"), s);
  insert_many _ _ _ s := (inl (PyMongoError "ServerSelectionTimeoutError"), s)
|}.

(** The scenario batch, about to be written to the unreachable server. *)
Definition mixed : @world driver :=
  @mkWorld driver Scenario.people [0; 1; 2] 0 tt [] [].

End Offline.

(** ** Concrete configurations *)

Module Settings.

(** Settings without [srv]. *)
Definition partial : dict :=
  [("host", VStr "db.example.org"); ("user", VStr "loader")].

(** The five settings, for a seed list. *)
Definition seed_list : dict :=
  [("srv", VBool true); ("user", VStr "loader"); ("password", VStr "s3cret");
   ("host", VStr "db.example.org"); ("auth_database", VStr "admin");
   ("database", VStr "warehouse")].

Definition unconfigured : MongoDbSink := mkSink partial "users" ["_id"].

(** Two records without [_id]. *)
Definition anonymous : @world MemoryStore.driver :=
  Scenario.start Scenario.people [2; 5] [].

End Settings.

(** * Properties *)

(** ** Dictionaries *)

Lemma pop_idempotent (k : string) (d : dict) : pop k (pop k d) = pop k d.
Proof.
  unfold pop. induction d as [|[k' v] d IH]; simpl; auto.
  destruct (String.eqb k k') eqn:E; simpl; auto.
  rewrite E. simpl. now f_equal.
Qed.

Lemma contains_pop (k : string) (d : dict) : contains k (pop k d) = false.
Proof.
  unfold pop. induction d as [|[k' v] d IH]; simpl; auto.
  destruct (String.eqb k k') eqn:E; simpl; auto.
  now rewrite E.
Qed.

Lemma get_absent (k : string) (d : dict) : contains k d = false -> get k d = VNone.
Proof.
  induction d as [|[k' v] d IH]; simpl; auto.
  destruct (String.eqb k k'); [discriminate | auto].
Qed.


Lemma get_pop_other (k k' : string) (d : dict) :
  k' <> k -> get k' (pop k d) = get k' d.
Proof.
  intros Hne. unfold pop. induction d as [|[k0 v] d IH]; simpl; auto.
  destruct (String.eqb k k0) eqn:E; simpl.
  - apply String.eqb_eq in E. subst k0.
    destruct (String.eqb k' k) eqn:E'; auto.
    apply String.eqb_eq in E'. contradiction.
  - destruct (String.eqb k' k0); auto.
Qed.

Lemma get_pop_same (k : string) (d : dict) : get k (pop k d) = VNone.
Proof. apply get_absent, contains_pop. Qed.

(** ** Identifiers and collection names *)

Module BsonFacts.
Import Bson.

(** [ObjectId] never refuses [None]: it asks for a generated identifier. *)
Lemma validate_None : validate VNone = inr None.
Proof. reflexivity. Qed.

(** A string that is not 24 characters long is refused. *)
Lemma validate_wrong_length (s : string) :
  String.length s <> 24 -> validate (VStr s) = inl (InvalidId (VStr s)).
Proof.
  intros H. simpl. destruct (Nat.eqb (String.length s) 24) eqn:E; auto.
  apply Nat.eqb_eq in E. contradiction.
Qed.

Lemma hex_value_not_space (c : ascii) (n : N) : hex_value c = Some n -> is_space c = false.
Proof.
  unfold hex_value, is_space. cbv zeta.
  destruct ((48 <=? N_of_ascii c) && (N_of_ascii c <=? 57))%N eqn:E1.
  - intros _. apply andb_prop in E1. destruct E1 as [H1 H2].
    apply N.leb_le in H1.
    apply orb_false_intro.
    + apply andb_false_intro2. apply N.leb_gt. lia.
    + apply N.eqb_neq. lia.
  - destruct ((97 <=? N_of_ascii c) && (N_of_ascii c <=? 102))%N eqn:E2.
    + intros _. apply andb_prop in E2. destruct E2 as [H1 H2].
      apply N.leb_le in H1.
      apply orb_false_intro.
      * apply andb_false_intro2. apply N.leb_gt. lia.
      * apply N.eqb_neq. lia.
    + destruct ((65 <=? N_of_ascii c) && (N_of_ascii c <=? 70))%N eqn:E3; [|discriminate].
      intros _. apply andb_prop in E3. destruct E3 as [H1 H2].
      apply N.leb_le in H1.
      apply orb_false_intro.
      * apply andb_false_intro2. apply N.leb_gt. lia.
      * apply N.eqb_neq. lia.
Qed.

(** [bytes.fromhex] fails on a string holding a foreign character. *)
Lemma fromhex_foreign (n : nat) :
  forall s,
    String.length s <= n ->
    (exists c, In c (list_ascii_of_string s) /\ foreign c) ->
    fromhex s = None.
Proof.
  induction n as [n IH] using lt_wf_ind. intros s Hlen (c & Hin & Hhex & Hsp).
  destruct s as [|c1 s1]; simpl in *; [contradiction|].
  destruct (is_space c1) eqn:E1.
  - apply (IH (String.length s1)); [lia | lia |].
    destruct Hin as [-> | Hin]; [congruence|]. exists c. repeat split; auto.
  - destruct (hex_value c1) as [top|] eqn:Ht; [|reflexivity].
    destruct s1 as [|c2 s2]; [reflexivity|]. simpl in *.
    destruct (hex_value c2) as [bot|] eqn:Hb; [|reflexivity].
    rewrite (IH (String.length s2)); [reflexivity | lia | lia |].
    destruct Hin as [-> | [-> | Hin]]; try congruence.
    exists c. repeat split; auto.
Qed.

(** A 24-character string with a foreign character is refused. *)
Lemma validate_wrong_character (s : string) (c : ascii) :
  In c (list_ascii_of_string s) -> foreign c ->
  validate (VStr s) = inl (InvalidId (VStr s)).
Proof.
  intros Hin Hc. simpl.
  destruct (Nat.eqb (String.length s) 24); [|reflexivity].
  rewrite (fromhex_foreign (String.length s) s (le_n _)); [reflexivity|].
  exists c. auto.
Qed.

(** Values that are neither [None], a string, bytes nor an identifier are
    refused with a [TypeError]. *)
Lemma validate_wrong_type (v : value) :
  match v with
  | VBool _ | VInt _ | VList _ | VDict _ => validate v = inl (TypeError v)
  | _ => True
  end.
Proof. destruct v; simpl; auto. Qed.

Example validate_hex :
  validate (VStr "507f1f77bcf86cd799439011") =
  inr (Some [x50; x7f; x1f; x77; xbc; xf8; x6c; xd7; x99; x43; x90; x11]).
Proof. reflexivity. Qed.

Example validate_not_hex :
  validate (VStr "507f1f77bcf86cd79943901g") =
  inl (InvalidId (VStr "507f1f77bcf86cd79943901g")).
Proof. reflexivity. Qed.

Example quote_plain : Urllib.quote "users" = "users".
Proof. reflexivity. Qed.

Example quote_reserved : Urllib.quote "click events/v2?" = "click%20events/v2%3F".
Proof. reflexivity. Qed.

Example quote_latin1 :
  Urllib.quote (String (ascii_of_N 233) EmptyString) = "%C3%A9".
Proof. reflexivity. Qed.

End BsonFacts.

(** ** The loop *)

Section Loop.

Context {runtime : Runtime} {driver : Pymongo}.

Lemma ObjectId_raises (oid : value) (w w1 : world) (e : exn) :
  ObjectId oid w = (inl e, w1) -> Bson.validate oid = inl e /\ w1 = w.
Proof.
  unfold ObjectId. destruct (Bson.validate oid) as [e'|[b|]]; intros H; inversion H; auto.
Qed.

Lemma ObjectId_returns (oid find_id : value) (w w1 : world) :
  ObjectId oid w = (inr find_id, w1) ->
  heap w1 = heap w /\ context_records w1 = context_records w /\
  store w1 = store w /\ calls w1 = calls w /\ log w1 = log w /\
  ((oid = VNone /\ find_id = VObjectId (generate (oid_count w)) /\
    oid_count w1 = S (oid_count w)) \/
   (exists b, Bson.validate oid = inr (Some b) /\ find_id = VObjectId b /\
              oid_count w1 = oid_count w)).
Proof.
  unfold ObjectId. destruct (Bson.validate oid) as [e'|[b|]] eqn:E; intros H; inversion H; subst.
  - repeat split; auto. right. exists b. auto.
  - simpl. repeat split; auto. left. repeat split; auto.
    destruct oid as [|b0|z|s|bs|bs|l|d]; simpl in E; try discriminate; auto.
    + destruct (Nat.eqb (String.length s) 24); [destruct (Bson.fromhex s)|]; discriminate.
    + destruct (Nat.eqb (List.length bs) 12); discriminate.
Qed.

(** One iteration never raises, and ends in one of the three ways. *)
Lemma loop_body_iteration (primary_id : string) (record : addr) (w : world) :
  exists o w', loop_body primary_id record w = (inr o, w') /\
               iteration primary_id record w o w'.
Proof.
  unfold loop_body, bind, record_get.
  destruct (String.eqb primary_id "_id") eqn:E.
  - apply String.eqb_eq in E. subst primary_id.
    unfold try_except, bind.
    destruct (ObjectId (get "_id" (heap w record)) w) as [[e|find_id] w1] eqn:EO.
    + apply ObjectId_raises in EO. destruct EO as [Hv ->].
      eexists _, _. split; [reflexivity|].
      now apply Iter_skip.
    + eexists _, _. split; [reflexivity|].
      now apply Iter_convert.
  - eexists _, _. split; [reflexivity|].
    apply Iter_raw_key. intros ->. discriminate.
Qed.

Lemma loop_body_deterministic (primary_id : string) (record : addr) (w w' : world)
    (o : option (UpdateOne addr)) :
  iteration primary_id record w o w' ->
  loop_body primary_id record w = (inr o, w').
Proof.
  intros H. unfold loop_body, bind, record_get. destruct H.
  - destruct (String.eqb primary_id "_id") eqn:E; [|reflexivity].
    apply String.eqb_eq in E. contradiction.
  - subst primary_id. simpl. unfold try_except, bind, ObjectId. rewrite H0. reflexivity.
  - subst primary_id. simpl. unfold try_except, bind. rewrite H0. reflexivity.
Qed.

End Loop.

Section LoopInvariants.

Context {runtime : Runtime} {driver : Pymongo}.

(** The fields of the world an iteration leaves alone. *)
Lemma iteration_frame (p : string) (record : addr) (w w' : world)
    (o : option (UpdateOne addr)) :
  iteration p record w o w' ->
  context_records w' = context_records w /\ store w' = store w /\
  calls w' = calls w.
Proof.
  intros H. destruct H as [Hp | e Hp Hv | find_id w1 Hp HO]; simpl; auto.
  apply ObjectId_returns in HO. tauto.
Qed.

(** The log grows by one warning exactly when the record is skipped. *)
Lemma iteration_log (p : string) (record : addr) (w w' : world)
    (o : option (UpdateOne addr)) :
  iteration p record w o w' ->
  match o with
  | Some op => log w' = log w /\ update op = [("$set", record)] /\ upsert op = true
  | None =>
      exists e, p = "_id" /\ Bson.validate (get "_id" (heap w record)) = inl e /\
                log w' = log w ++ [skip_warning (get "_id" (heap w record), e)]
  end.
Proof.
  intros H. destruct H as [Hp | e Hp Hv | find_id w1 Hp HO]; simpl; auto.
  - exists e. auto.
  - apply ObjectId_returns in HO. intuition.
Qed.

(** The heap changes at most at the record of the iteration, and only by
    the removal of [_id] after a successful conversion. *)
Lemma iteration_heap (p : string) (record : addr) (w w' : world)
    (o : option (UpdateOne addr)) :
  iteration p record w o w' ->
  forall b,
    heap w' b = heap w b \/
    (b = record /\ p = "_id" /\ o <> None /\
     heap w' b = pop "_id" (heap w b) /\
     exists x, Bson.validate (get "_id" (heap w b)) = inr x).
Proof.
  intros H b. destruct H as [Hp | e Hp Hv | find_id w1 Hp HO]; simpl; auto.
  pose proof (ObjectId_returns _ _ _ _ HO) as (Hh & _ & _ & _ & _ & Hc).
  rewrite Hh.
  destruct (Nat.eqb b record) eqn:E; auto.
  apply Nat.eqb_eq in E. subst b. right.
  repeat split; auto; try discriminate.
  destruct Hc as [(Hn & _ & _) | (x & Hx & _ & _)].
  - rewrite Hn. exists None. reflexivity.
  - exists (Some x). assumption.
Qed.

(** After a conversion the record of the iteration has lost [_id]. *)
Lemma iteration_popped (record : addr) (w w' : world) (op : UpdateOne addr) :
  iteration "_id" record w (Some op) w' ->
  heap w' record = pop "_id" (heap w record).
Proof.
  intros H. inversion H as [Hp | e Hp Hv | find_id w1 Hp HO]; subst.
  - contradiction.
  - simpl. rewrite Nat.eqb_refl.
    apply ObjectId_returns in HO. destruct HO as (-> & _). reflexivity.
Qed.

(** The loop over a concatenation is the loop over the first part followed
    by the loop over the second. *)
Lemma for_records_app (p : string) (l1 l2 : list addr) :
  forall (ops : list (UpdateOne addr)) (w : world),
    for_records p (l1 ++ l2) ops w =
    bind (for_records p l1 ops) (fun ops1 => for_records p l2 ops1) w.
Proof.
  induction l1 as [|a l1 IH]; intros ops w; simpl.
  - reflexivity.
  - unfold bind in *. destruct (loop_body p a w) as [[e|o] w1].
    + reflexivity.
    + apply IH.
Qed.

(** Invariant rule for the loop: a property of the records done so far, the
    world and [bulk_operations] that every iteration preserves holds when
    the loop ends; and the loop always ends without raising. *)
Lemma for_records_invariant (p : string)
    (P : list addr -> world -> list (UpdateOne addr) -> Prop) :
  (forall done record w ops o w',
      P done w ops -> iteration p record w o w' ->
      P (done ++ [record]) w'
        (match o with Some op => ops ++ [op] | None => ops end)) ->
  forall records done w ops,
    P done w ops ->
    exists ops' w',
      for_records p records ops w = (inr ops', w') /\ P (done ++ records) w' ops'.
Proof.
  intros Hstep. induction records as [|a records IH]; intros done w ops HP; simpl.
  - exists ops, w. rewrite app_nil_r. auto.
  - destruct (loop_body_iteration p a w) as (o & w1 & Hrun & Hit).
    unfold bind. rewrite Hrun.
    destruct (IH (done ++ [a]) w1 _ (Hstep _ _ _ _ _ _ HP Hit)) as (ops' & w' & Hfor & HP').
    exists ops', w'. rewrite <- app_assoc in HP'. auto.
Qed.

(** The loop always returns. *)
Lemma for_records_total (p : string) (records : list addr)
    (ops : list (UpdateOne addr)) (w : world) :
  exists ops' w', for_records p records ops w = (inr ops', w').
Proof.
  destruct (for_records_invariant p (fun _ _ _ => True)) with
    (records := records) (done := @nil addr) (w := w) (ops := ops)
    as (ops' & w' & H & _); auto.
  exists ops', w'. exact H.
Qed.

(** What the loop leaves alone, what it logs and how many requests it
    builds: every record gives a request or a warning, never both. *)
Lemma for_records_account (p : string) (records : list addr)
    (ops ops' : list (UpdateOne addr)) (w w' : world) :
  for_records p records ops w = (inr ops', w') ->
  context_records w' = context_records w /\ store w' = store w /\
  calls w' = calls w /\
  exists skipped new,
    log w' = log w ++ map skip_warning skipped /\
    ops' = ops ++ new /\
    List.length new + List.length skipped = List.length records /\
    (p <> "_id" -> skipped = []) /\
    Forall (fun op => exists r, In r records /\ update op = [("$set", r)] /\
                                upsert op = true) new.
Proof.
  intros Hrun.
  destruct (for_records_invariant p
    (fun done w1 ops1 =>
       context_records w1 = context_records w /\ store w1 = store w /\
       calls w1 = calls w /\
       exists skipped new,
         log w1 = log w ++ map skip_warning skipped /\
         ops1 = ops ++ new /\
         List.length new + List.length skipped = List.length done /\
         (p <> "_id" -> skipped = []) /\
         Forall (fun op => exists r, In r done /\ update op = [("$set", r)] /\
                                     upsert op = true) new))
    with (records := records) (done := @nil addr) (w := w) (ops := ops)
    as (ops1 & w1 & Hrun1 & HP).
  - intros done record w1 ops1 o w2 (Hc & Hs & Hk & skipped & new & Hl & Ho & Hn & Hp & Hall) Hit.
    pose proof (iteration_frame _ _ _ _ _ Hit) as (Hc' & Hs' & Hk').
    pose proof (iteration_log _ _ _ _ _ Hit) as Hlog.
    repeat split; try congruence.
    assert (Hmono : Forall (fun op => exists r, In r (done ++ [record]) /\
                                update op = [("$set", r)] /\ upsert op = true) new).
    { eapply Forall_impl; [|exact Hall]. intros op (r & Hr & Hu). exists r.
      split; auto. apply in_or_app. auto. }
    destruct o as [op|].
    + destruct Hlog as (Hlog & Hupd & Hups).
      exists skipped, (new ++ [op]). repeat split; auto.
      * congruence.
      * subst ops1. now rewrite app_assoc.
      * rewrite !length_app in *. simpl. lia.
      * apply Forall_app. split; auto. constructor; auto.
        exists record. split; auto. apply in_or_app. right. now left.
    + destruct Hlog as (e & Hpid & Hv & Hlog).
      exists (skipped ++ [(get "_id" (heap w1 record), e)]), new. repeat split; auto.
      * rewrite Hlog, Hl, map_app, <- app_assoc. reflexivity.
      * rewrite !length_app in *. simpl. lia.
      * intros Hne. contradiction.
  - repeat split; auto. exists [], []. simpl. rewrite !app_nil_r. repeat split; auto.
  - rewrite Hrun in Hrun1. inversion Hrun1; subst. simpl in HP. exact HP.
Qed.

(** Each record object is, after the loop, as it was or without [_id]. *)
Lemma for_records_heap (p : string) (records : list addr)
    (ops ops' : list (UpdateOne addr)) (w w' : world) :
  for_records p records ops w = (inr ops', w') ->
  forall b, heap w' b = heap w b \/ heap w' b = pop "_id" (heap w b).
Proof.
  intros Hrun.
  destruct (for_records_invariant p
    (fun _ w1 _ => forall b, heap w1 b = heap w b \/ heap w1 b = pop "_id" (heap w b)))
    with (records := records) (done := @nil addr) (w := w) (ops := ops)
    as (ops1 & w1 & Hrun1 & HP).
  - intros _ record w1 _ o w2 HP Hit b.
    destruct (iteration_heap _ _ _ _ _ Hit b) as [-> | (_ & _ & _ & -> & _)]; auto.
    destruct (HP b) as [-> | ->]; auto. rewrite pop_idempotent. auto.
  - auto.
  - rewrite Hrun in Hrun1. inversion Hrun1; subst. exact HP.
Qed.


(** With a key other than [_id] the loop changes nothing and maps every
    record to the request on its raw key value. *)
Lemma for_records_raw_key (p : string) (records : list addr) :
  p <> "_id" ->
  forall (ops : list (UpdateOne addr)) (w : world),
    for_records p records ops w =
    (inr (ops ++ map (fun r => upsert_by_key p (get p (heap w r)) r) records), w).
Proof.
  intros Hp. induction records as [|a records IH]; intros ops w; simpl.
  - now rewrite app_nil_r.
  - unfold bind.
    rewrite (loop_body_deterministic p a w w _ (Iter_raw_key p a w Hp)).
    rewrite IH, <- app_assoc. reflexivity.
Qed.


(** The request built for the record at a given place of the batch stays
    at its place in [bulk_operations]. *)
Lemma for_records_split (p : string) (pre post : list addr) (record : addr)
    (w w1 w1' : world) (ops1 : list (UpdateOne addr)) (o : option (UpdateOne addr)) :
  for_records p pre [] w = (inr ops1, w1) ->
  loop_body p record w1 = (inr o, w1') ->
  for_records p (pre ++ record :: post) [] w =
  for_records p post (match o with Some op => ops1 ++ [op] | None => ops1 end) w1'.
Proof.
  intros Hpre Hbody. rewrite for_records_app. unfold bind. rewrite Hpre.
  simpl. unfold bind. rewrite Hbody. reflexivity.
Qed.

End LoopInvariants.

(** ** The three paths through [process_batch] *)

Section Paths.

Context {runtime : Runtime} {driver : Pymongo}.

(** No database handle: the exception leaves before anything is done. *)
Lemma process_batch_not_connected (self : MongoDbSink) (w : world) (e : exn) :
  connect (config self) = inl e ->
  process_batch self w = (inl e, w).
Proof.
  intros Hc. unfold process_batch, bind, lift. rewrite Hc. reflexivity.
Qed.

(** No key: one [insert_many] with the records as they are. *)
Lemma process_batch_unkeyed (self : MongoDbSink) (w : world) (db : Database) :
  key_properties self = [] ->
  connect (config self) = inr db ->
  process_batch self w =
  let collection_name := Urllib.quote (stream_name self) in
  let sent := map (heap w) (context_records w) in
  match insert_many db collection_name sent (store w) with
  | (inl e, s) =>
      (inl e,
       mkWorld (heap w) (context_records w) (oid_count w) s
               (calls w ++ [Call_insert_many collection_name sent]) (log w))
  | (inr _, s) =>
      (inr tt,
       mkWorld (heap w) [] (oid_count w) s
               (calls w ++ [Call_insert_many collection_name sent])
               (log w ++ [(INFO, Uploaded (List.length (context_records w))
                                          collection_name)]))
  end.
Proof.
  intros Hk Hc.
  unfold process_batch, bind, lift, get_records, collection_insert_many.
  rewrite Hc, Hk. simpl.
  destruct (insert_many db (Urllib.quote (stream_name self))
              (map (heap w) (context_records w)) (store w)) as [[e|[]] s];
    reflexivity.
Qed.

(** A key: the loop, then one [bulk_write] unless nothing was mapped. *)
Lemma process_batch_keyed (self : MongoDbSink) (w w1 : world) (db : Database)
    (primary_id : string) (rest : list string) (ops : list (UpdateOne addr)) :
  key_properties self = primary_id :: rest ->
  connect (config self) = inr db ->
  for_records primary_id (context_records w) [] w = (inr ops, w1) ->
  process_batch self w =
  let collection_name := Urllib.quote (stream_name self) in
  let uploaded := (INFO, Uploaded (List.length (context_records w)) collection_name) in
  match ops with
  | [] =>
      (inr tt,
       mkWorld (heap w1) [] (oid_count w1) (store w1) (calls w1)
               (log w1 ++ [uploaded]))
  | _ :: _ =>
      let sent := map (resolve (heap w1)) ops in
      match bulk_write db collection_name sent false (store w1) with
      | (inl e, s) =>
          (inl e,
           mkWorld (heap w1) (context_records w1) (oid_count w1) s
                   (calls w1 ++ [Call_bulk_write collection_name sent false])
                   (log w1))
      | (inr result, s) =>
          (inr tt,
           mkWorld (heap w1) [] (oid_count w1) s
                   (calls w1 ++ [Call_bulk_write collection_name sent false])
                   ((log w1 ++ [(INFO, BulkWriteCompleted (modified_count result)
                                                          (upserted_count result))])
                      ++ [uploaded]))
      end
  end.
Proof.
  intros Hk Hc Hfor.
  unfold process_batch, bind, lift, get_records.
  rewrite Hc, Hk. simpl. rewrite Hfor.
  destruct ops as [|op ops]; [reflexivity|].
  unfold collection_bulk_write.
  destruct (bulk_write db (Urllib.quote (stream_name self))
              (map (resolve (heap w1)) (op :: ops)) false (store w1)) as [[e|r] s];
    reflexivity.
Qed.

(** With a key, whatever the driver answers: the write calls made, and the
    log and heap the loop left. *)
Lemma process_batch_keyed_submits (self : MongoDbSink) (w w1 : world) (db : Database)
    (primary_id : string) (rest : list string) (ops : list (UpdateOne addr)) :
  key_properties self = primary_id :: rest ->
  connect (config self) = inr db ->
  for_records primary_id (context_records w) [] w = (inr ops, w1) ->
  let w' := snd (process_batch self w) in
  calls w' =
    calls w ++
    match ops with
    | [] => []
    | _ :: _ => [Call_bulk_write (Urllib.quote (stream_name self))
                                 (map (resolve (heap w1)) ops) false]
    end /\
  heap w' = heap w1 /\
  exists tail, log w' = log w1 ++ tail /\ skipped_count tail = 0.
Proof.
  intros Hk Hc Hfor w'. subst w'.
  rewrite (process_batch_keyed self w w1 db primary_id rest ops Hk Hc Hfor). cbv zeta.
  apply for_records_account in Hfor. destruct Hfor as (_ & _ & Hcalls & _).
  rewrite Hcalls.
  destruct ops as [|op ops].
  - simpl. rewrite app_nil_r. repeat split. eexists. split; reflexivity.
  - destruct (bulk_write _ _ _ _ _) as [[e|r] s]; simpl; repeat split.
    + exists []. now rewrite app_nil_r.
    + eexists. rewrite <- app_assoc. split; reflexivity.
Qed.

End Paths.

(** ** Counting in the log *)

Lemma skipped_count_app (l1 l2 : list log_entry) :
  skipped_count (l1 ++ l2) = skipped_count l1 + skipped_count l2.
Proof. unfold skipped_count. now rewrite filter_app, length_app. Qed.

Lemma skipped_count_warnings (skipped : list (value * exn)) :
  skipped_count (map skip_warning skipped) = List.length skipped.
Proof.
  unfold skipped_count. induction skipped as [|r skipped IH]; simpl; auto.
Qed.

Lemma reported_updated_app (l1 l2 : list log_entry) :
  reported_updated (l1 ++ l2) = (reported_updated l1 + reported_updated l2)%Z.
Proof.
  unfold reported_updated. induction l1 as [|[lvl [v e|m u|n c]] l1 IH]; simpl; lia.
Qed.

Lemma reported_upserted_app (l1 l2 : list log_entry) :
  reported_upserted (l1 ++ l2) = (reported_upserted l1 + reported_upserted l2)%Z.
Proof.
  unfold reported_upserted. induction l1 as [|[lvl [v e|m u|n c]] l1 IH]; simpl; lia.
Qed.

Lemma reported_updated_warnings (skipped : list (value * exn)) :
  reported_updated (map skip_warning skipped) = 0%Z.
Proof. induction skipped as [|r skipped IH]; simpl; auto. Qed.

Lemma reported_upserted_warnings (skipped : list (value * exn)) :
  reported_upserted (map skip_warning skipped) = 0%Z.
Proof. induction skipped as [|r skipped IH]; simpl; auto. Qed.

Lemma no_bulk_result_in_warnings (skipped : list (value * exn)) (entry : log_entry) :
  In entry (map skip_warning skipped) -> is_bulk_result entry = false.
Proof.
  intros H. apply in_map_iff in H. destruct H as (r & <- & _). reflexivity.
Qed.

(** ** The in-memory store *)

Module MemoryStoreFacts.
Import MemoryStore.



Lemma get_set_field_other (k k' : string) (v : value) (d : dict) :
  String.eqb k k' = false -> get k (set_field k' v d) = get k d.
Proof.
  intros Hne. induction d as [|[k0 v0] d IH]; simpl.
  - now rewrite Hne.
  - destruct (String.eqb k' k0) eqn:E; simpl.
    + apply String.eqb_eq in E. subst k0. now rewrite Hne.
    + destruct (String.eqb k k0); auto.
Qed.

Lemma get_apply_set_absent (k : string) (fields : dict) :
  contains k fields = false ->
  forall d, get k (apply_set fields d) = get k d.
Proof.
  unfold apply_set. induction fields as [|[k0 v0] fields IH]; simpl; intros H d; auto.
  destruct (String.eqb k k0) eqn:E; [discriminate|].
  rewrite IH by assumption. now apply get_set_field_other.
Qed.


(** After an upsert on the filter [{k: None}] that does not set [k], the
    document that filter selects is the one the upsert acted on: the one it
    selected before, or the one just created at the end. *)
Lemma update_one_keeps_target (k : string) (op : UpdateOne dict) (docs : list dict) :
  filter op = [(k, VNone)] ->
  contains k (set_fields (update op)) = false ->
  upsert op = true ->
  target [(k, VNone)] (snd (update_one op docs)) =
  Some (match target [(k, VNone)] docs with
        | Some i => i
        | None => List.length docs
        end).
Proof.
  intros Hf Hk Hup.
  assert (Hkeep : forall doc, matches [(k, VNone)] doc = true ->
            matches [(k, VNone)] (apply_set (set_fields (update op)) doc) = true).
  { intros doc. unfold matches. simpl.
    now rewrite get_apply_set_absent by assumption. }
  induction docs as [|doc docs IH].
  - cbn [update_one]. rewrite Hup, Hf. cbn [snd target List.length].
    rewrite Hkeep; [reflexivity|].
    unfold matches. simpl. now rewrite String.eqb_refl.
  - cbn [update_one target]. rewrite Hf.
    destruct (matches [(k, VNone)] doc) eqn:Em.
    + destruct (changes_id (set_fields (update op)) doc); cbn [snd target].
      * now rewrite Em.
      * now rewrite Hkeep.
    + destruct (update_one op docs) as [o docs''].
      cbn [snd target List.length] in *. rewrite Em, IH.
      destruct (target [(k, VNone)] docs); reflexivity.
Qed.

End MemoryStoreFacts.

(** ** The claims *)

Section Claims.

Context {runtime : Runtime} {driver : Pymongo}.

(** Case analysis on a run of [process_batch]: no connection, no key, or a
    key with the outcome of the loop. *)
Ltac batch_paths self w :=
  let e := fresh "e" in
  let db := fresh "db" in
  let Hc := fresh "Hconnect" in
  let Hk := fresh "Hkey" in
  let p := fresh "primary_id" in
  let rest := fresh "rest" in
  let ops := fresh "ops" in
  let w1 := fresh "w1" in
  let Hfor := fresh "Hfor" in
  destruct (connect (config self)) as [e|db] eqn:Hc;
  [ rewrite (process_batch_not_connected self w e Hc)
  | destruct (key_properties self) as [|p rest] eqn:Hk;
    [ rewrite (process_batch_unkeyed self w db Hk Hc); cbv zeta
    | destruct (for_records_total p (context_records w) [] w) as (ops & w1 & Hfor);
      rewrite (process_batch_keyed self w w1 db p rest ops Hk Hc Hfor); cbv zeta ] ].


(** When [process_batch] raises instead, the buffer is left as it was. *)
Lemma process_batch_raise_keeps_buffer (self : MongoDbSink) (w w' : world) (e : exn) :
  process_batch self w = (inl e, w') ->
  context_records w' = context_records w.
Proof.
  batch_paths self w.
  - intros H; inversion H; reflexivity.
  - destruct (insert_many _ _ _ _) as [[e'|u] s]; intros H; inversion H; reflexivity.
  - apply for_records_account in Hfor. destruct Hfor as (Hrec & _).
    destruct ops as [|op ops].
    + discriminate.
    + destruct (bulk_write _ _ _ _ _) as [[e'|r] s]; intros H; inversion H; auto.
Qed.


(** C10. The summary line reports [len(records)], the size of the batch as
    it was handed in: it is the number of write operations submitted plus
    the number of records skipped with a warning. *)
Theorem summary_counts_submitted_and_skipped (self : MongoDbSink) (w w' : world) :
  process_batch self w = (inr tt, w') ->
  exists new_calls before,
    calls w' = calls w ++ new_calls /\
    log w' = log w ++ before ++
             [(INFO, Uploaded (List.length (context_records w))
                              (Urllib.quote (stream_name self)))] /\
    List.length (context_records w) = submitted new_calls + skipped_count before.
Proof.
  batch_paths self w.
  - discriminate.
  - destruct (insert_many _ _ _ _) as [[e|u] s]; intros H; inversion H; subst; simpl.
    eexists _, []. split; [reflexivity|]. split; [reflexivity|].
    unfold skipped_count. simpl. rewrite length_map. lia.
  - apply for_records_account in Hfor.
    destruct Hfor as (_ & _ & Hcalls & skipped & new & Hlog & Hops & Hlen & _).
    simpl in Hops. subst new.
    destruct ops as [|op ops].
    + intros H; inversion H; subst; simpl.
      exists [], (map skip_warning skipped). rewrite app_nil_r, Hlog, Hcalls.
      split; [reflexivity|]. split; [now rewrite <- app_assoc|].
      rewrite skipped_count_warnings. simpl in *. lia.
    + destruct (bulk_write _ _ _ _ _) as [[e|r] s]; intros H; inversion H; subst; simpl.
      eexists _, (map skip_warning skipped ++ [_]). rewrite Hlog, Hcalls.
      split; [reflexivity|]. split; [now rewrite <- !app_assoc|].
      rewrite skipped_count_app, skipped_count_warnings.
      unfold skipped_count. simpl. rewrite length_map. simpl in *. lia.
Qed.


(** C9. With a key other than [_id] nothing is validated and nothing is
    skipped: every record gives one upsert whose filter holds the raw value
    of the key, [None] for a record without the key.  Two records without
    the key therefore carry the same filter [{key: None}], and on the store
    the second acts on the very document the first acted on or created. *)
Theorem raw_key_is_never_validated (self : MongoDbSink) (w : world) (db : Database)
    (p : string) (rest : list string) :
  key_properties self = p :: rest ->
  p <> "_id" ->
  connect (config self) = inr db ->
  let w' := snd (process_batch self w) in
  let request := fun r => upsert_sent p (get p (heap w r)) (heap w r) in
  for_records p (context_records w) [] w =
    (inr (map (fun r => upsert_by_key p (get p (heap w r)) r) (context_records w)), w) /\
  (context_records w <> [] ->
   calls w' = calls w ++ [Call_bulk_write (Urllib.quote (stream_name self))
                                          (map request (context_records w)) false]) /\
  heap w' = heap w /\
  (exists tail, log w' = log w ++ tail /\ skipped_count tail = 0) /\
  (forall r, contains p (heap w r) = false ->
             request r = upsert_sent p VNone (heap w r)) /\
  (forall r1 r2 docs,
      contains p (heap w r1) = false ->
      contains p (heap w r2) = false ->
      filter (request r1) = filter (request r2) /\
      MemoryStore.target (filter (request r2))
                         (snd (MemoryStore.update_one (request r1) docs)) =
      Some (match MemoryStore.target (filter (request r1)) docs with
            | Some i => i
            | None => List.length docs
            end)).
Proof.
  intros Hk Hp Hc w' request.
  pose proof (for_records_raw_key p (context_records w) Hp [] w) as Hfor.
  simpl in Hfor.
  assert (Hsent : map (resolve (heap w))
                      (map (fun r => upsert_by_key p (get p (heap w r)) r)
                           (context_records w)) =
                  map request (context_records w)).
  { rewrite map_map. apply map_ext. reflexivity. }
  split; [exact Hfor|].
  subst w'. rewrite (process_batch_keyed self w w db p rest _ Hk Hc Hfor). cbv zeta.
  rewrite Hsent.
  assert (Hnone : forall r, contains p (heap w r) = false ->
                            request r = upsert_sent p VNone (heap w r)).
  { intros r Hr. unfold request. now rewrite (get_absent p _ Hr). }
  assert (Hsame : forall r1 r2 docs,
             contains p (heap w r1) = false ->
             contains p (heap w r2) = false ->
             filter (request r1) = filter (request r2) /\
             MemoryStore.target (filter (request r2))
                                (snd (MemoryStore.update_one (request r1) docs)) =
             Some (match MemoryStore.target (filter (request r1)) docs with
                   | Some i => i
                   | None => List.length docs
                   end)).
  { intros r1 r2 docs H1 H2. rewrite (Hnone r1 H1), (Hnone r2 H2). simpl.
    split; [reflexivity|].
    apply MemoryStoreFacts.update_one_keeps_target; simpl; auto. }
  destruct (context_records w) as [|r records] eqn:Hrec.
  - simpl. refine (conj _ (conj eq_refl (conj _ (conj Hnone Hsame)))).
    + intros H. contradiction.
    + eexists. split; reflexivity.
  - cbn [map]. cbn [map] in Hsent.
    destruct (bulk_write _ _ _ _ _) as [[e|res] s]; simpl;
      refine (conj (fun _ => eq_refl) (conj eq_refl (conj _ (conj Hnone Hsame)))).
    + exists []. now rewrite app_nil_r.
    + eexists. rewrite <- app_assoc. split; reflexivity.
Qed.


(** The request sent for a record whose identifier was converted: where it
    stands in the bulk write, its filter and its [$set] fields. *)
Lemma request_for_converted_record (self : MongoDbSink) (w w1 w1' : world)
    (db : Database) (rest : list string) (pre post : list addr) (record : addr)
    (ops1 : list (UpdateOne addr)) (find_id : value) :
  key_properties self = "_id" :: rest ->
  connect (config self) = inr db ->
  context_records w = pre ++ record :: post ->
  for_records "_id" pre [] w = (inr ops1, w1) ->
  ObjectId (get "_id" (heap w1 record)) w1 = (inr find_id, w1') ->
  let body := pop "_id" (heap w record) in
  loop_body "_id" record w1 =
    (inr (Some (upsert_by_key "_id" find_id record)), snd (record_pop record "_id" w1')) /\
  heap (snd (record_pop record "_id" w1')) record = body /\
  exists before after,
    List.length before = List.length ops1 /\
    calls (snd (process_batch self w)) =
      calls w ++ [Call_bulk_write (Urllib.quote (stream_name self))
                                  (before ++ upsert_sent "_id" find_id body :: after)
                                  false].
Proof.
  intros Hk Hc Hrec Hpre HO body.
  pose proof (Iter_convert "_id" record w1 find_id w1' eq_refl HO) as Hit.
  pose proof (loop_body_deterministic _ _ _ _ _ Hit) as Hbody.
  assert (Hpop : heap (snd (record_pop record "_id" w1')) record = body).
  { rewrite (iteration_popped _ _ _ _ Hit). unfold body.
    destruct (for_records_heap _ _ _ _ _ _ Hpre record) as [-> | ->]; auto.
    apply pop_idempotent. }
  split; [exact Hbody|]. split; [exact Hpop|].
  destruct (for_records_total "_id" post (ops1 ++ [upsert_by_key "_id" find_id record])
              (snd (record_pop record "_id" w1'))) as (ops2 & w2 & Hpost).
  assert (Hall : for_records "_id" (context_records w) [] w = (inr ops2, w2)).
  { rewrite Hrec, (for_records_split _ _ _ _ _ _ _ _ _ Hpre Hbody). exact Hpost. }
  assert (Hfinal : heap w2 record = body).
  { destruct (for_records_heap _ _ _ _ _ _ Hpost record) as [H | H];
      rewrite H, Hpop; auto. apply pop_idempotent. }
  destruct (for_records_account _ _ _ _ _ _ Hpost)
    as (_ & _ & _ & _ & new & _ & Hops & _).
  destruct (process_batch_keyed_submits self w w2 db "_id" rest ops2 Hk Hc Hall)
    as (Hcalls & _).
  exists (map (resolve (heap w2)) ops1), (map (resolve (heap w2)) new).
  split; [apply length_map|].
  rewrite Hcalls, Hops, <- app_assoc. simpl.
  rewrite map_app. simpl. unfold resolve at 2. simpl. rewrite Hfinal.
  destruct ops1; reflexivity.
Qed.

(** C6. With the key [_id], a record whose identifier converts gives the
    request with filter [{_id: converted}], update [{"$set": record}] and
    [upsert=True]; [_id] is removed from the record before the request is
    built, so that the fields sent under [$set] are the record's fields
    without [_id], every other field as it was.  Applied to a stored
    document, [$set] leaves the fields the record does not have, [_id]
    among them, as they are. *)
Theorem converted_id_moves_to_filter (self : MongoDbSink) (w w1 w1' : world)
    (db : Database) (rest : list string) (pre post : list addr) (record : addr)
    (ops1 : list (UpdateOne addr)) (find_id : value) :
  key_properties self = "_id" :: rest ->
  connect (config self) = inr db ->
  context_records w = pre ++ record :: post ->
  for_records "_id" pre [] w = (inr ops1, w1) ->
  ObjectId (get "_id" (heap w1 record)) w1 = (inr find_id, w1') ->
  let body := pop "_id" (heap w record) in
  (exists binary, find_id = VObjectId binary) /\
  loop_body "_id" record w1 =
    (inr (Some (mkUpdateOne [("_id", find_id)] [("$set", record)] true)),
     snd (record_pop record "_id" w1')) /\
  heap (snd (record_pop record "_id" w1')) record = body /\
  contains "_id" body = false /\
  (forall k, k <> "_id" -> get k body = get k (heap w record)) /\
  (forall stored k,
      contains k body = false ->
      get k (MemoryStore.apply_set body stored) = get k stored) /\
  exists before after,
    List.length before = List.length ops1 /\
    calls (snd (process_batch self w)) =
      calls w ++ [Call_bulk_write (Urllib.quote (stream_name self))
                    (before ++ mkUpdateOne [("_id", find_id)] [("$set", body)] true
                            :: after)
                    false].
Proof.
  intros Hk Hc Hrec Hpre HO body.
  destruct (request_for_converted_record self w w1 w1' db rest pre post record
              ops1 find_id Hk Hc Hrec Hpre HO) as (Hbody & Hpop & Hsent).
  split.
  { apply ObjectId_returns in HO.
    destruct HO as (_ & _ & _ & _ & _ & [(_ & -> & _) | (b & _ & -> & _)]); eauto. }
  split; [exact Hbody|]. split; [exact Hpop|].
  split; [apply contains_pop|].
  split; [intros k Hne; now apply get_pop_other|].
  split; [intros stored k Hk'; now apply MemoryStoreFacts.get_apply_set_absent|].
  exact Hsent.
Qed.


(** C3, as the code has it. When the bulk write raises, as the driver does
    to report operations that failed, [process_batch] raises the same
    exception: no result line and no summary line are logged, the buffer is
    not reset, and the bulk write has been called once. *)
Theorem bulk_write_error_propagates (self : MongoDbSink) (w w1 : world)
    (db : Database) (p : string) (rest : list string)
    (op : UpdateOne addr) (ops : list (UpdateOne addr)) (e : exn) (s : Store) :
  key_properties self = p :: rest ->
  connect (config self) = inr db ->
  for_records p (context_records w) [] w = (inr (op :: ops), w1) ->
  bulk_write db (Urllib.quote (stream_name self))
             (map (resolve (heap w1)) (op :: ops)) false (store w1) = (inl e, s) ->
  exists w',
    process_batch self w = (inl e, w') /\
    calls w' = calls w ++ [Call_bulk_write (Urllib.quote (stream_name self))
                                           (map (resolve (heap w1)) (op :: ops)) false] /\
    store w' = s /\
    context_records w' = context_records w /\
    exists skipped, log w' = log w ++ map skip_warning skipped.
Proof.
  intros Hk Hc Hfor Hbw.
  rewrite (process_batch_keyed self w w1 db p rest _ Hk Hc Hfor). cbv zeta.
  rewrite Hbw.
  apply for_records_account in Hfor.
  destruct Hfor as (Hrec & _ & Hcalls & skipped & _ & Hlog & _).
  eexists. split; [reflexivity|]. simpl. rewrite Hcalls.
  repeat split; auto. exists skipped. exact Hlog.
Qed.

(** C4, as the code has it. With a key, a batch for which no request was
    built (no record at all, or every record skipped for its [_id]) makes no
    write call and returns: the store is untouched, the buffer is reset, and
    the log gains one warning per record of the batch and the summary line,
    with no updated or upserted count. *)
Theorem keyed_batch_without_requests (self : MongoDbSink) (w w1 : world)
    (db : Database) (p : string) (rest : list string) :
  key_properties self = p :: rest ->
  connect (config self) = inr db ->
  for_records p (context_records w) [] w = (inr [], w1) ->
  exists w' skipped,
    process_batch self w = (inr tt, w') /\
    calls w' = calls w /\
    store w' = store w /\
    context_records w' = [] /\
    log w' = log w ++ map skip_warning skipped ++
             [(INFO, Uploaded (List.length (context_records w))
                              (Urllib.quote (stream_name self)))] /\
    List.length skipped = List.length (context_records w) /\
    reported_updated (skipn (List.length (log w)) (log w')) = 0%Z /\
    reported_upserted (skipn (List.length (log w)) (log w')) = 0%Z.
Proof.
  intros Hk Hc Hfor.
  rewrite (process_batch_keyed self w w1 db p rest _ Hk Hc Hfor). cbv zeta.
  apply for_records_account in Hfor.
  destruct Hfor as (_ & Hstore & Hcalls & skipped & new & Hlog & Hops & Hlen & _).
  simpl in Hops. subst new. simpl in Hlen.
  eexists. exists skipped. split; [reflexivity|]. simpl.
  rewrite Hlog, <- app_assoc.
  repeat split; auto.
  - rewrite skipn_app, skipn_all, Nat.sub_diag. simpl.
    rewrite reported_updated_app, reported_updated_warnings. reflexivity.
  - rewrite skipn_app, skipn_all, Nat.sub_diag. simpl.
    rewrite reported_upserted_app, reported_upserted_warnings. reflexivity.
Qed.

End Claims.

(** ** The claims on concrete batches *)

Module Runs.
Import MemoryStore Scenario.




(** C3 as stated fails: the store refuses the first request and applies the
    second; the driver raises and [process_batch] raises with it, logging
    nothing and keeping the buffer. *)
Lemma partial_failure_is_raised :
  fst (process_batch by_sku stocked) =
    inl (BulkWriteError [(0, "would modify the immutable field '_id'")]) /\
  log (snd (process_batch by_sku stocked)) = [] /\
  context_records (snd (process_batch by_sku stocked)) = [0; 1] /\
  store (snd (process_batch by_sku stocked)) =
    [("products",
      [[("_id", VStr "p-1"); ("sku", VStr "A1"); ("price", VInt 10)];
       [("sku", VStr "B2"); ("price", VInt 5)]])].
Proof. repeat split. Qed.

Lemma bulk_write_error_propagates_run :
  fst (process_batch by_sku stocked) =
    inl (BulkWriteError [(0, "would modify the immutable field '_id'")]) /\
  List.length (calls (snd (process_batch by_sku stocked))) = 1.
Proof.
  destruct (bulk_write_error_propagates by_sku stocked stocked "warehouse" "sku" []
              (upsert_by_key "sku" (VStr "A1") 0) [upsert_by_key "sku" (VStr "B2") 1]
              (BulkWriteError [(0, "would modify the immutable field '_id'")])
              [("products",
                [[("_id", VStr "p-1"); ("sku", VStr "A1"); ("price", VInt 10)];
                 [("sku", VStr "B2"); ("price", VInt 5)]])]
              eq_refl eq_refl eq_refl eq_refl)
    as (w' & Hrun & Hcalls & _).
  rewrite Hrun. simpl. rewrite Hcalls. split; reflexivity.
Defined.

(** C4 as stated fails twice.  A batch whose every record is skipped maps
    to no request, yet two records are reported as skipped, not zero; and
    without a key an empty batch still reaches the driver through
    [insert_many], which refuses an empty list. *)
Lemma empty_mapping_is_not_silent :
  (mapped "_id" [1; 4] all_malformed = [] /\
   skipped_count (log (snd (process_batch by_id all_malformed))) = 2) /\
  (calls (snd (process_batch unkeyed nothing)) =
     [Call_insert_many "click%20events" []] /\
   fst (process_batch unkeyed nothing) = inl (TypeError (VList []))).
Proof. repeat split. Qed.

Lemma keyed_batch_without_requests_run :
  fst (process_batch by_id all_malformed) = inr tt /\
  calls (snd (process_batch by_id all_malformed)) = [] /\
  log (snd (process_batch by_id all_malformed)) =
    [(WARNING, MalformedId (VStr "bad") (InvalidId (VStr "bad")));
     (WARNING, MalformedId (VInt 42) (TypeError (VInt 42)));
     (INFO, Uploaded 2 "users")].
Proof.
  destruct (keyed_batch_without_requests by_id all_malformed
              (snd (for_records "_id" [1; 4] [] all_malformed)) "warehouse" "_id" []
              eq_refl eq_refl eq_refl)
    as (w' & skipped & Hrun & Hcalls & _).
  rewrite Hrun. simpl. rewrite Hcalls. repeat split.
  apply (f_equal snd) in Hrun. simpl in Hrun. rewrite <- Hrun. reflexivity.
Defined.


Lemma converted_id_moves_to_filter_run :
  exists after,
    calls (snd (process_batch by_id mixed)) =
      [Call_bulk_write "users"
         (mkUpdateOne
            [("_id", VObjectId [x50; x7f; x1f; x77; xbc; xf8; x6c; xd7; x99; x43; x90; x11])]
            [("$set", [("name", VStr "a")])] true :: after)
         false].
Proof.
  destruct (converted_id_moves_to_filter by_id mixed mixed mixed "warehouse" []
              [] [1; 2] 0 []
              (VObjectId [x50; x7f; x1f; x77; xbc; xf8; x6c; xd7; x99; x43; x90; x11])
              eq_refl eq_refl eq_refl eq_refl eq_refl)
    as (_ & _ & _ & _ & _ & _ & before & after & Hlen & Hcalls).
  destruct before as [|b before]; [|discriminate].
  exists after. exact Hcalls.
Defined.




Lemma raw_key_is_never_validated_run :
  calls (snd (process_batch by_sku unlabelled)) =
    [Call_bulk_write "products"
       [upsert_sent "sku" VNone [("price", VInt 7)];
        upsert_sent "sku" VNone [("price", VInt 9)]] false].
Proof.
  assert (Hne : "sku" <> "_id") by discriminate.
  destruct (raw_key_is_never_validated by_sku unlabelled "warehouse" "sku" []
              eq_refl Hne eq_refl) as (_ & Hcalls & _).
  apply Hcalls. discriminate.
Defined.

Lemma summary_counts_submitted_and_skipped_run :
  exists new_calls before,
    log (snd (process_batch by_id mixed)) = before ++ [(INFO, Uploaded 3 "users")] /\
    3 = submitted new_calls + skipped_count before.
Proof.
  assert (Hrun : process_batch by_id mixed = (inr tt, snd (process_batch by_id mixed)))
    by reflexivity.
  destruct (summary_counts_submitted_and_skipped by_id mixed _ Hrun)
    as (new_calls & before & _ & Hlog & Hcount).
  exists new_calls, before. split; [exact Hlog | exact Hcount].
Defined.

End Runs.

(** * Further properties of [process_batch] *)

(** ** The collection name (line 45) *)

Module UrllibFacts.
Import Urllib Unquote.

Lemma unquote_quote_step (c : ascii) (s : string) :
  unquote (quote (String c s)) = String c (unquote (quote s)).
Proof.
  destruct c as [b0 b1 b2 b3 b4 b5 b6 b7].
  destruct b0, b1, b2, b3, b4, b5, b6, b7; reflexivity.
Qed.

(** A collection name decodes to the stream name it was made from. *)
Lemma unquote_quote (s : string) : unquote (quote s) = s.
Proof.
  induction s as [|c s IH]; [reflexivity|].
  rewrite unquote_quote_step, IH. reflexivity.
Qed.

(** Two streams with different names never share a collection name. *)
Theorem distinct_streams_distinct_collections (self1 self2 : MongoDbSink) :
  stream_name self1 <> stream_name self2 ->
  quote (stream_name self1) <> quote (stream_name self2).
Proof.
  intros Hne Heq. apply Hne.
  rewrite <- (unquote_quote (stream_name self1)), <- (unquote_quote (stream_name self2)).
  now rewrite Heq.
Qed.

(** A stream name made of letters, digits and [_ . - ~ /] is the collection
    name, unchanged. *)
Theorem safe_stream_name_is_collection_name (self : MongoDbSink) :
  forallb (fun c => is_safe (N_of_ascii c)) (list_ascii_of_string (stream_name self)) = true ->
  quote (stream_name self) = stream_name self.
Proof.
  generalize (stream_name self) as s.
  induction s as [|c s IH]; [reflexivity|].
  cbn [list_ascii_of_string forallb]. intros H.
  apply andb_prop in H. destruct H as [Hc Hs].
  specialize (IH Hs).
  destruct c as [b0 b1 b2 b3 b4 b5 b6 b7].
  destruct b0, b1, b2, b3, b4, b5, b6, b7;
    first [ discriminate Hc | cbn; rewrite IH; reflexivity ].
Qed.

End UrllibFacts.

(** ** The configuration (lines 21-42) *)

Section Configuration.

Context {runtime : Runtime} {driver : Pymongo}.

(** The assembly of a connection string fails exactly on the first setting
    that is missing, and on nothing else. *)
Lemma build_connection_string_outcome (cfg : dict) (db_name : value) :
  match find (fun k => negb (contains k cfg)) connection_settings with
  | Some k => build_connection_string cfg db_name = inl (KeyError k)
  | None => exists s, build_connection_string cfg db_name = inr (VStr s)
  end.
Proof.
  unfold build_connection_string, connection_settings, Exc.getitem, Exc.bind.
  cbn [find].
  destruct (contains "srv" cfg); cbn [negb]; [|reflexivity].
  destruct (contains "user" cfg); cbn [negb];
    [|destruct (truthy (get "srv" cfg)); [|destruct (contains "port" cfg)]; reflexivity].
  destruct (contains "password" cfg); cbn [negb];
    [|destruct (truthy (get "srv" cfg)); [|destruct (contains "port" cfg)]; reflexivity].
  destruct (contains "host" cfg); cbn [negb];
    [|destruct (truthy (get "srv" cfg)); [|destruct (contains "port" cfg)]; reflexivity].
  destruct (contains "auth_database" cfg); cbn [negb];
    destruct (truthy (get "srv" cfg)); try reflexivity; try (eexists; reflexivity);
    destruct (contains "port" cfg); try reflexivity; eexists; reflexivity.
Qed.

(** Without a connection string, a missing setting makes [process_batch]
    raise [KeyError] on the first one missing in the order [srv], [user],
    [password], [host], [auth_database], before anything is written or
    logged: the world is left as it was. *)
Theorem missing_setting_raises_KeyError (self : MongoDbSink) (w : world) (k : string) :
  truthy (get "connection_string" (config self)) = false ->
  find (fun k => negb (contains k (config self))) connection_settings = Some k ->
  process_batch self w = (inl (KeyError k), w).
Proof.
  intros Hcs Hfind.
  apply process_batch_not_connected.
  unfold connect. rewrite Hcs. cbn [negb].
  pose proof (build_connection_string_outcome (config self)
                (get_default "db_name" (get "database" (config self)) (config self))) as H.
  rewrite Hfind in H. rewrite H. reflexivity.
Qed.


(** With [srv] set, the [port] setting plays no part: two configurations
    that differ only in [port] give the same connection string. *)
Theorem srv_ignores_port (cfg1 cfg2 : dict) (db_name : value) :
  (forall k, k <> "port" -> contains k cfg1 = contains k cfg2 /\ get k cfg1 = get k cfg2) ->
  truthy (get "srv" cfg1) = true ->
  build_connection_string cfg1 db_name = build_connection_string cfg2 db_name.
Proof.
  intros Hsame Hsrv.
  assert (Hitem : forall k, k <> "port" -> Exc.getitem k cfg1 = Exc.getitem k cfg2).
  { intros k Hk. unfold Exc.getitem. destruct (Hsame k Hk) as [-> ->]. reflexivity. }
  unfold build_connection_string.
  rewrite <- !Hitem by discriminate.
  destruct (Exc.getitem "srv" cfg1) as [e|srv] eqn:E; [reflexivity|].
  unfold Exc.getitem in E. destruct (contains "srv" cfg1); inversion E; subst srv.
  cbn [Exc.bind]. rewrite Hsrv. reflexivity.
Qed.

(** With a connection string configured, the five settings are not read:
    two configurations that agree on [connection_string], [db_name],
    [database] and [ssl] connect alike, whatever else they hold or lack. *)
Theorem connection_string_overrides_settings (cfg1 cfg2 : dict) :
  (forall k, In k ["connection_string"; "db_name"; "database"; "ssl"] ->
             contains k cfg1 = contains k cfg2 /\ get k cfg1 = get k cfg2) ->
  truthy (get "connection_string" cfg1) = true ->
  connect cfg1 = connect cfg2.
Proof.
  intros Hsame Hcs.
  destruct (Hsame "connection_string") as [_ Hg1]; [simpl; auto|].
  destruct (Hsame "db_name") as [Hc2 Hg2]; [simpl; auto|].
  destruct (Hsame "database") as [_ Hg3]; [simpl; auto|].
  destruct (Hsame "ssl") as [Hc4 Hg4]; [simpl; auto 6|].
  unfold connect, get_default.
  rewrite <- Hg1, <- Hc2, <- Hg2, <- Hg3, <- Hc4, <- Hg4, Hcs. reflexivity.
Qed.

End Configuration.

(** ** The loop on the key [_id] (lines 58-78) *)

Section IdBatch.

Context {runtime : Runtime} {driver : Pymongo}.

Lemma among_In (done : list addr) (b : addr) : among done b = true <-> In b done.
Proof.
  unfold among. rewrite existsb_exists. split.
  - intros (x & Hin & Heq). apply Nat.eqb_eq in Heq. now subst.
  - intros Hin. exists b. split; auto. apply Nat.eqb_refl.
Qed.

Lemma accepted_pop (fields : dict) : accepted (pop "_id" fields) = true.
Proof. unfold accepted. now rewrite get_pop_same. Qed.

(** The state of the loop after the records [done]: the accepted ones have
    lost [_id] and have their request, in order; the refused ones are as
    they were and have their warning, in order. *)
Lemma id_batch_invariant (records : list addr) (ops : list (UpdateOne addr))
    (w w1 : world) :
  for_records "_id" records [] w = (inr ops, w1) ->
  (forall b, heap w1 b = if among records b && accepted (heap w b)
                         then pop "_id" (heap w b) else heap w b) /\
  flat_map records_of ops = List.filter (fun r => accepted (heap w r)) records /\
  Forall (fun op => exists v r, op = upsert_by_key "_id" v r) ops /\
  log w1 = log w ++ flat_map (fun r => refusal (heap w r)) records.
Proof.
  intros Hrun.
  destruct (for_records_invariant "_id"
    (fun done w' ops' =>
       (forall b, heap w' b = if among done b && accepted (heap w b)
                              then pop "_id" (heap w b) else heap w b) /\
       flat_map records_of ops' = List.filter (fun r => accepted (heap w r)) done /\
       Forall (fun op => exists v r, op = upsert_by_key "_id" v r) ops' /\
       log w' = log w ++ flat_map (fun r => refusal (heap w r)) done))
    with (records := records) (done := @nil addr) (w := w) (ops := @nil (UpdateOne addr))
    as (ops' & w' & Hrun' & HP).
  - intros done record w' ops' o w'' (Hheap & Hops & Hshape & Hlog) Hit.
    assert (Hamong : forall b, among (done ++ [record]) b = among done b || Nat.eqb b record).
    { intros b. unfold among. rewrite existsb_app. simpl. now rewrite orb_false_r. }
    destruct Hit as [Hp | e _ Hv | find_id wx _ HO].
    + contradiction.
    + (* the record is skipped *)
      assert (Hrec : heap w' record = heap w record).
      { rewrite Hheap in Hv |- *.
        destruct (among done record && accepted (heap w record)); auto.
        rewrite get_pop_same in Hv. discriminate. }
      rewrite Hrec in Hv.
      assert (Hacc : accepted (heap w record) = false).
      { unfold accepted. now rewrite Hv. }
      repeat split.
      * intros b. simpl. rewrite Hheap, Hamong.
        destruct (Nat.eqb b record) eqn:E.
        -- apply Nat.eqb_eq in E. subst b. rewrite Hacc, !andb_false_r. reflexivity.
        -- now rewrite orb_false_r.
      * rewrite filter_app. simpl. rewrite Hacc, app_nil_r. exact Hops.
      * exact Hshape.
      * simpl. rewrite Hlog, flat_map_app, <- app_assoc. simpl.
        unfold refusal. rewrite Hv, Hrec. reflexivity.
    + (* the identifier is converted *)
      pose proof (ObjectId_returns _ _ _ _ HO) as (Hh & _ & _ & _ & Hl & Hc).
      assert (Hacc : accepted (heap w record) = true).
      { destruct (among done record && accepted (heap w record)) eqn:E.
        - apply andb_prop in E. tauto.
        - specialize (Hheap record). rewrite E in Hheap. rewrite Hheap in Hc.
          unfold accepted.
          destruct Hc as [(-> & _) | (x & -> & _)]; reflexivity. }
      repeat split.
      * intros b. simpl. rewrite Hh, Hheap, Hamong.
        destruct (Nat.eqb b record) eqn:E.
        -- apply Nat.eqb_eq in E. subst b. rewrite Hacc, orb_true_r, !andb_true_r.
           destruct (among done record); [apply pop_idempotent | reflexivity].
        -- now rewrite orb_false_r.
      * rewrite flat_map_app, filter_app. simpl. rewrite Hacc, Hops. reflexivity.
      * apply Forall_app. split; auto. constructor; auto. eauto.
      * assert (Href : refusal (heap w record) = []).
        { unfold refusal. unfold accepted in Hacc.
          destruct (Bson.validate (get "_id" (heap w record))); [discriminate|].
          reflexivity. }
        simpl. rewrite Hl, Hlog, flat_map_app. simpl.
        now rewrite Href, !app_nil_r.
  - repeat split; auto. simpl. now rewrite app_nil_r.
  - rewrite Hrun in Hrun'. inversion Hrun'; subst. exact HP.
Qed.

Lemma payloads_resolve (h : addr -> dict) (ops : list (UpdateOne addr)) :
  flat_map (fun rq => map snd (update rq)) (map (resolve h) ops) =
  map h (flat_map records_of ops).
Proof.
  induction ops as [|op ops IH]; simpl; auto.
  rewrite map_app, IH. f_equal.
  unfold records_of. rewrite !map_map. reflexivity.
Qed.

Lemma one_record_per_request (ops : list (UpdateOne addr)) :
  Forall (fun op => exists v r, op = upsert_by_key "_id" v r) ops ->
  List.length (flat_map records_of ops) = List.length ops.
Proof.
  induction 1 as [|op ops (v & r & ->) _ IH]; simpl; auto.
Qed.

(** With the key [_id], the bulk write carries one request per accepted
    record, in the order of the batch, with the record's fields without
    [_id]; the warnings logged are those of the refused records, in the
    order of the batch, before any other line. *)
Theorem id_batch_sends_accepted_in_order (self : MongoDbSink) (w : world)
    (db : Database) (rest : list string) :
  key_properties self = "_id" :: rest ->
  connect (config self) = inr db ->
  let w' := snd (process_batch self w) in
  let sent_records := List.filter (fun r => accepted (heap w r)) (context_records w) in
  exists sent,
    calls w' =
      calls w ++
      match sent with
      | [] => []
      | _ :: _ => [Call_bulk_write (Urllib.quote (stream_name self)) sent false]
      end /\
    List.length sent = List.length sent_records /\
    flat_map (fun rq => map snd (update rq)) sent =
      map (fun r => pop "_id" (heap w r)) sent_records /\
    exists tail,
      log w' = log w ++ flat_map (fun r => refusal (heap w r)) (context_records w) ++ tail /\
      skipped_count tail = 0.
Proof.
  intros Hk Hc w' sent_records.
  destruct (for_records_total "_id" (context_records w) [] w) as (ops & w1 & Hfor).
  destruct (id_batch_invariant _ _ _ _ Hfor) as (Hheap & Hops & Hshape & Hlog).
  destruct (process_batch_keyed_submits self w w1 db "_id" rest ops Hk Hc Hfor)
    as (Hcalls & _ & tail & Hlog' & Htail).
  exists (map (resolve (heap w1)) ops).
  split; [|split; [|split]].
  - fold w' in Hcalls. rewrite Hcalls. destruct ops; reflexivity.
  - rewrite length_map, <- (one_record_per_request ops Hshape), Hops. reflexivity.
  - rewrite payloads_resolve, Hops. apply map_ext_in.
    intros r Hr. apply filter_In in Hr. destruct Hr as [Hin Hacc].
    rewrite Hheap, Hacc. apply among_In in Hin. now rewrite Hin.
  - exists tail. fold w' in Hlog'. rewrite Hlog', Hlog, <- app_assoc. auto.
Qed.


(** Running the loop on records that are refused or without [_id]: the
    requests carry generated identifiers only, one new identifier each. *)
Lemma for_records_without_ids (records : list addr) (ops : list (UpdateOne addr))
    (w w1 : world) :
  (forall r, In r records ->
             accepted (heap w r) = false \/ contains "_id" (heap w r) = false) ->
  for_records "_id" records [] w = (inr ops, w1) ->
  oid_count w1 = oid_count w + List.length ops /\
  Forall (fun op => exists n,
              oid_count w <= n < oid_count w1 /\
              filter op = [("_id", VObjectId (generate n))]) ops.
Proof.
  intros Hno Hrun.
  destruct (for_records_invariant "_id"
    (fun done w' ops' =>
       incl done records ->
       (forall r, In r records ->
                  accepted (heap w' r) = false \/ contains "_id" (heap w' r) = false) /\
       oid_count w' = oid_count w + List.length ops' /\
       Forall (fun op => exists n,
                   oid_count w <= n < oid_count w' /\
                   filter op = [("_id", VObjectId (generate n))]) ops'))
    with (records := records) (done := @nil addr) (w := w) (ops := @nil (UpdateOne addr))
    as (ops' & w' & Hrun' & HP).
  - intros done record w' ops' o w'' HP Hit Hincl.
    assert (Hrec : In record records).
    { apply Hincl. apply in_or_app. right. now left. }
    destruct HP as (Hno' & Hcount & Hgen).
    { intros x Hx. apply Hincl. apply in_or_app. now left. }
    assert (Hstable : forall r, In r records ->
              accepted (heap w'' r) = false \/ contains "_id" (heap w'' r) = false).
    { intros r Hr.
      destruct (iteration_heap _ _ _ _ _ Hit r) as [-> | (_ & _ & _ & -> & _)]; auto.
      right. apply contains_pop. }
    split; [exact Hstable|].
    destruct Hit as [Hp | e _ Hv | find_id wx _ HO].
    + contradiction.
    + simpl. auto.
    + pose proof (ObjectId_returns _ _ _ _ HO) as (_ & _ & _ & _ & _ & Hc).
      assert (Hgenerated : find_id = VObjectId (generate (oid_count w')) /\
                           oid_count wx = S (oid_count w')).
      { destruct (Hno' record Hrec) as [Hacc | Habs].
        - unfold accepted in Hacc.
          destruct Hc as [(Hn & _) | (x & Hx & _)].
          + rewrite Hn in Hacc. discriminate.
          + rewrite Hx in Hacc. discriminate.
        - rewrite (get_absent _ _ Habs) in Hc.
          destruct Hc as [(_ & H1 & H2) | (x & Hx & _)]; [auto | discriminate]. }
      destruct Hgenerated as (-> & Hcx).
      simpl. rewrite Hcx, length_app. simpl. split; [lia|].
      apply Forall_app. split.
      * eapply Forall_impl; [|exact Hgen]. intros op (n & Hn & Hf).
        exists n. split; [lia | exact Hf].
      * constructor; auto. exists (oid_count w'). split; [lia | reflexivity].
  - intros _. split; [exact Hno|]. split; [simpl; lia | constructor].
  - rewrite Hrun in Hrun'. inversion Hrun'; subst.
    destruct HP as (_ & Hcount & Hgen); [apply incl_refl|]. auto.
Qed.

(** When a bulk write on the key [_id] raises and [process_batch] is called
    again on the buffer it left, the loop maps the same records as the
    first time, each to a newly generated identifier: none is sent under the
    identifier it came with. *)
Theorem retry_sends_generated_ids (self : MongoDbSink) (w w' : world) (e : exn)
    (db : Database) (rest : list string) :
  key_properties self = "_id" :: rest ->
  connect (config self) = inr db ->
  process_batch self w = (inl e, w') ->
  context_records w' = context_records w /\
  exists ops2 w2,
    for_records "_id" (context_records w') [] w' = (inr ops2, w2) /\
    flat_map records_of ops2 =
      List.filter (fun r => accepted (heap w r)) (context_records w) /\
    oid_count w2 = oid_count w' + List.length ops2 /\
    Forall (fun op => exists n,
                oid_count w' <= n < oid_count w2 /\
                filter op = [("_id", VObjectId (generate n))]) ops2.
Proof.
  intros Hk Hc Hrun.
  pose proof (process_batch_raise_keeps_buffer self w w' e Hrun) as Hbuf.
  split; [exact Hbuf|].
  destruct (for_records_total "_id" (context_records w) [] w) as (ops & w1 & Hfor).
  destruct (process_batch_keyed_submits self w w1 db "_id" rest ops Hk Hc Hfor)
    as (_ & Hheap & _).
  rewrite Hrun in Hheap. simpl in Hheap.
  destruct (id_batch_invariant _ _ _ _ Hfor) as (Hh & _).
  destruct (for_records_total "_id" (context_records w') [] w') as (ops2 & w2 & Hfor2).
  exists ops2, w2. split; [exact Hfor2|].
  assert (Hstate : forall r, In r (context_records w') ->
            heap w' r = if accepted (heap w r) then pop "_id" (heap w r) else heap w r).
  { intros r Hr. rewrite Hbuf in Hr. apply among_In in Hr.
    rewrite Hheap, Hh, Hr. reflexivity. }
  destruct (id_batch_invariant _ _ _ _ Hfor2) as (_ & Hops2 & _).
  split.
  - rewrite Hops2, Hbuf. apply filter_ext_in. intros r Hr.
    rewrite <- Hbuf in Hr. rewrite (Hstate r Hr).
    destruct (accepted (heap w r)) eqn:E; [apply accepted_pop | exact E].
  - apply (for_records_without_ids _ _ _ _) in Hfor2; [exact Hfor2|].
    intros r Hr. rewrite (Hstate r Hr).
    destruct (accepted (heap w r)) eqn:E; [right; apply contains_pop | left; exact E].
Qed.


End IdBatch.

(** ** The write call and the exceptions (lines 54-88) *)

Section WriteCall.

Context {runtime : Runtime} {driver : Pymongo}.




(** In a batch keyed by [_id] whose records all lack [_id], no record is
    skipped and the i-th record is sent under the i-th identifier generated
    from then on; the filters are pairwise different as far as the generated
    identifiers are. *)
Theorem absent_ids_are_generated_in_order (records : list addr)
    (ops : list (UpdateOne addr)) (w w1 : world) :
  (forall r, In r records -> contains "_id" (heap w r) = false) ->
  for_records "_id" records [] w = (inr ops, w1) ->
  flat_map records_of ops = records /\
  map filter ops =
    map (fun n => [("_id", VObjectId (generate n))])
        (seq (oid_count w) (List.length records)) /\
  oid_count w1 = oid_count w + List.length records /\
  log w1 = log w /\
  ((forall i j, In i (seq (oid_count w) (List.length records)) ->
                In j (seq (oid_count w) (List.length records)) ->
                generate i = generate j -> i = j) ->
   NoDup (map filter ops)).
Proof.
  intros Habs Hrun.
  destruct (for_records_invariant "_id"
    (fun done w' ops' =>
       incl done records ->
       (forall r, In r records -> contains "_id" (heap w' r) = false) /\
       flat_map records_of ops' = done /\
       map filter ops' =
         map (fun n => [("_id", VObjectId (generate n))])
             (seq (oid_count w) (List.length done)) /\
       oid_count w' = oid_count w + List.length done /\
       log w' = log w))
    with (records := records) (done := @nil addr) (w := w) (ops := @nil (UpdateOne addr))
    as (ops' & w' & Hrun' & HP).
  - intros done record w' ops' o w'' HP Hit Hincl.
    assert (Hrec : In record records).
    { apply Hincl. apply in_or_app. right. now left. }
    destruct HP as (Hno & Hrecs & Hfilters & Hcount & Hlog).
    { intros x Hx. apply Hincl. apply in_or_app. now left. }
    assert (Hstable : forall r, In r records -> contains "_id" (heap w'' r) = false).
    { intros r Hr.
      destruct (iteration_heap _ _ _ _ _ Hit r) as [-> | (_ & _ & _ & -> & _)]; auto.
      apply contains_pop. }
    split; [exact Hstable|].
    pose proof (get_absent _ _ (Hno record Hrec)) as Hnone.
    destruct Hit as [Hp | e _ Hv | find_id wx _ HO].
    + contradiction.
    + rewrite Hnone in Hv. discriminate.
    + rewrite Hnone in HO. unfold ObjectId in HO. simpl in HO.
      inversion HO; subst find_id wx. simpl.
      rewrite flat_map_app, map_app, length_app, seq_app, map_app. simpl.
      rewrite Hrecs, Hfilters, Hcount, Hlog.
      repeat split; auto. lia.
  - intros _. simpl. repeat split; auto.
  - rewrite Hrun in Hrun'. inversion Hrun'; subst.
    destruct HP as (_ & Hrecs & Hfilters & Hcount & Hlog); [apply incl_refl|].
    repeat split; auto.
    intros Hinj. rewrite Hfilters.
    apply Finite.Injective_map_NoDup_in; [|apply seq_NoDup].
    intros i j Hi Hj Heq. apply Hinj; auto. congruence.
Qed.

(** With the key [_id], a record whose [_id] is a string of 24 hexadecimal
    digits is never skipped: it is sent under the 12 bytes the digits
    spell. *)
Theorem hex_id_is_never_skipped (record : addr) (w : world) (s : string) :
  get "_id" (heap w record) = VStr s ->
  String.length s = 24 ->
  (forall c, In c (list_ascii_of_string s) -> Bson.hex_value c <> None) ->
  exists binary,
    List.length binary = 12 /\
    Bson.fromhex s = Some binary /\
    loop_body "_id" record w =
      (inr (Some (upsert_by_key "_id" (VObjectId binary) record)),
       snd (record_pop record "_id" w)).
Proof.
  intros Hget Hlen Hhex.
  assert (Hpairs : forall n t,
            String.length t = 2 * n ->
            (forall c, In c (list_ascii_of_string t) -> Bson.hex_value c <> None) ->
            exists b, Bson.fromhex t = Some b /\ List.length b = n).
  { induction n as [|n IH]; intros t Ht Hall.
    - destruct t; [|discriminate]. exists []. auto.
    - destruct t as [|c1 [|c2 u]]; try (simpl in Ht; lia).
      simpl in Ht. assert (Hu : String.length u = 2 * n) by lia.
      destruct (IH u Hu) as (b & Hb & Hlb).
      { intros c Hc. apply Hall. simpl. auto. }
      destruct (Bson.hex_value c1) as [top|] eqn:E1;
        [|elim (Hall c1); simpl; auto].
      destruct (Bson.hex_value c2) as [bot|] eqn:E2;
        [|elim (Hall c2); simpl; auto].
      cbn [Bson.fromhex].
      rewrite (BsonFacts.hex_value_not_space c1 top E1), E1, E2, Hb.
      eexists. split; [reflexivity|]. simpl. now rewrite Hlb. }
  destruct (Hpairs 12 s Hlen Hhex) as (binary & Hfrom & Hl12).
  exists binary. split; [exact Hl12|]. split; [exact Hfrom|].
  apply loop_body_deterministic, Iter_convert; [reflexivity|].
  unfold ObjectId. rewrite Hget. simpl. rewrite Hlen, Hfrom. reflexivity.
Qed.

End WriteCall.

(** ** The further properties on concrete inputs *)

Module FurtherRuns.
Import MemoryStore Scenario.

Lemma missing_setting_raises_KeyError_run :
  process_batch Settings.unconfigured mixed = (inl (KeyError "srv"), mixed).
Proof.
  apply (missing_setting_raises_KeyError Settings.unconfigured mixed "srv");
    reflexivity.
Defined.


Lemma srv_ignores_port_run :
  build_connection_string (("port", VInt 27017) :: Settings.seed_list) (VStr "warehouse") =
  build_connection_string Settings.seed_list (VStr "warehouse").
Proof.
  apply srv_ignores_port; [|reflexivity].
  intros k Hk. simpl.
  destruct (String.eqb k "port") eqn:E; [|split; reflexivity].
  apply String.eqb_eq in E. contradiction.
Defined.

Lemma connection_string_overrides_settings_run :
  connect (("srv", VInt 1) :: settings) = connect settings.
Proof.
  apply connection_string_overrides_settings; [|reflexivity].
  intros k [<- | [<- | [<- | [<- | []]]]]; split; reflexivity.
Defined.

Lemma distinct_streams_distinct_collections_run :
  Urllib.quote (stream_name by_id) <> Urllib.quote (stream_name unkeyed).
Proof.
  apply UrllibFacts.distinct_streams_distinct_collections. discriminate.
Defined.

Lemma safe_stream_name_is_collection_name_run :
  Urllib.quote (stream_name by_sku) = "products".
Proof.
  apply (UrllibFacts.safe_stream_name_is_collection_name by_sku). reflexivity.
Defined.

Lemma id_batch_sends_accepted_in_order_run :
  exists sent,
    calls (snd (process_batch by_id mixed)) = [Call_bulk_write "users" sent false] /\
    flat_map (fun rq => map snd (update rq)) sent =
      [[("name", VStr "a")]; [("name", VStr "c")]].
Proof.
  destruct (id_batch_sends_accepted_in_order by_id mixed "warehouse" [] eq_refl eq_refl)
    as (sent & Hcalls & Hlen & Hpay & _).
  exists sent. split; [|exact Hpay].
  rewrite Hcalls. destruct sent; [discriminate Hlen | reflexivity].
Defined.

Lemma retry_sends_generated_ids_run :
  exists ops2 w2,
    for_records (driver := Offline.driver) "_id" [0; 1; 2] []
                (snd (process_batch by_id Offline.mixed)) = (inr ops2, w2) /\
    flat_map records_of ops2 = [0; 2] /\
    Forall (fun op => exists n, filter op = [("_id", VObjectId (mem_generate n))]) ops2.
Proof.
  assert (Hrun : process_batch (driver := Offline.driver) by_id Offline.mixed =
                 (inl (PyMongoError "ServerSelectionTimeoutError"),
                  snd (process_batch by_id Offline.mixed))) by reflexivity.
  destruct (retry_sends_generated_ids (driver := Offline.driver) by_id Offline.mixed _ _
              (VStr "warehouse") [] eq_refl eq_refl Hrun)
    as (_ & ops2 & w2 & Hfor & Hrecs & _ & Hgen).
  exists ops2, w2. split; [exact Hfor|]. split; [exact Hrecs|].
  eapply Forall_impl; [|exact Hgen]. intros op (n & _ & Hf). exists n. exact Hf.
Defined.



Lemma absent_ids_are_generated_in_order_run :
  map filter (mapped "_id" [2; 5] Settings.anonymous) =
  [[("_id", VObjectId (mem_generate 0))]; [("_id", VObjectId (mem_generate 1))]].
Proof.
  assert (Habs : forall r, In r [2; 5] -> contains "_id" (heap Settings.anonymous r) = false).
  { intros r [<- | [<- | []]]; reflexivity. }
  destruct (absent_ids_are_generated_in_order [2; 5]
              (mapped "_id" [2; 5] Settings.anonymous) Settings.anonymous
              (snd (for_records "_id" [2; 5] [] Settings.anonymous)) Habs eq_refl)
    as (_ & Hfilters & _).
  exact Hfilters.
Defined.

Lemma hex_id_is_never_skipped_run :
  exists binary,
    loop_body "_id" 0 mixed =
      (inr (Some (upsert_by_key "_id" (VObjectId binary) 0)),
       snd (record_pop 0 "_id" mixed)).
Proof.
  assert (Hhex : forall c, In c (list_ascii_of_string "507f1f77bcf86cd799439011") ->
                           Bson.hex_value c <> None).
  { intros c Hc. simpl in Hc.
    repeat (destruct Hc as [<- | Hc]; [discriminate|]). contradiction. }
  destruct (hex_id_is_never_skipped 0 mixed "507f1f77bcf86cd799439011"
              eq_refl eq_refl Hhex) as (binary & _ & _ & Hbody).
  exists binary. exact Hbody.
Defined.

End FurtherRuns.
